(** * objparser: the Analyze spatial map (.obj) parser

    A shallow embedding of [objparser.py] (classes [SpatialObject] and
    [AnalyzeSpatialMap]) and the properties of its decoder.

    Modelling conventions.
    - The open file [f] is the list of bytes that remain to be read;
      [f.read(n)] hands back at most [n] of them and never fails.
    - Python integers are [Z].  The rows [mult], [num] are NumPy
      scalars of dtype uint8.  The counter [pixel_num] starts as the
      Python integer 0 and is a NumPy scalar from its first [+=] on;
      which dtype [pixel_num + mult] has depends on the NumPy that is
      installed, and the source does not say which: the decoder takes
      this dtype as a parameter ([counter_dtype]), and sums wrap in it
      as NumPy scalars do.
    - The cells of a volume are float64 in NumPy; every value stored is
      an integer of [0, 255], so a cell is kept as that integer.
    - A float decoded by [struct.unpack('f', ...)] is kept as the four
      bytes it was read from, in host byte order.
    - Exceptions are the constructors of [exn], named after the Python
      exception and the place that raises it.
    - [np.zeros] refuses a shape whose bytes do not fit a signed
      64-bit size (ValueError); running out of memory (MemoryError),
      which depends on the machine, is not modelled. *)

From Stdlib Require Import ZArith Lia.
From Stdlib.Strings Require Import Byte.
From stdpp Require Import base tactics option list.

Local Open Scope Z_scope.

(** ** Exceptions *)

Inductive exn : Set :=
  | struct_error          (* struct.unpack('f', b) with len(b) <> 4 *)
  | UnicodeDecodeError    (* bytes.decode('utf-8') on an ill-formed prefix *)
  | ValueError_reshape    (* ndarray.reshape((-1, 2)) on an odd size *)
  | ValueError_broadcast  (* slice assignment of a longer array *)
  | ValueError_zeros      (* np.zeros on a shape that is too big *)
  | IndexError_ndarray    (* maps_rle[i, :] with i past the last row *)
  | IndexError_list.      (* self.vols[idx] with idx out of range *)

(** The error kinds of the decoder's interface, and the exception that
    stands for each; the ValueError of [np.zeros] has none. *)
Inductive error_kind : Set :=
  | TruncatedInputError
  | InvalidEncodingError
  | MalformedRLEStreamError
  | RunOverflowError
  | EndOfStreamError
  | IndexOutOfRangeError.

Definition kind_of (e : exn) : option error_kind :=
  match e with
  | struct_error => Some TruncatedInputError
  | UnicodeDecodeError => Some InvalidEncodingError
  | ValueError_reshape => Some MalformedRLEStreamError
  | ValueError_broadcast => Some RunOverflowError
  | ValueError_zeros => None
  | IndexError_ndarray => Some EndOfStreamError
  | IndexError_list => Some IndexOutOfRangeError
  end.

Inductive result (A : Type) : Type :=
  | Return (a : A)
  | Raise (e : exn).
Arguments Return {A} a.
Arguments Raise {A} e.

Definition fails_with {A} (r : result A) (k : error_kind) : Prop :=
  ∃ e, r = Raise e ∧ kind_of e = Some k.

Definition rbind {A B} (r : result A) (k : A → result B) : result B :=
  match r with
  | Return a => k a
  | Raise e => Raise e
  end.

(** ** The file cursor *)

Definition stream := list byte.

(** A computation that reads from the open file. *)
Definition io (A : Type) : Type := stream → result (A * stream).

Definition io_ret {A} (a : A) : io A := λ s, Return (a, s).
Definition io_bind {A B} (m : io A) (k : A → io B) : io B :=
  λ s, match m s with
       | Return (a, s') => k a s'
       | Raise e => Raise e
       end.

Declare Scope io_scope.
Delimit Scope io_scope with io.
Notation "'do' x <- m ; k" := (io_bind m (λ x, k))
  (at level 10, x name, m at level 100, k at level 200) : io_scope.

(** [f.read(n)] *)
Definition read (n : nat) : io (list byte) :=
  λ s, Return (take n s, drop n s).

(** [f.read()] *)
Definition read_all : io (list byte) :=
  λ s, Return (s, []).

(** ** Bytes and integers *)

Definition byte_val (b : byte) : Z := Z.of_N (Byte.to_N b).

(** [int.from_bytes(bs, byteorder='big', signed=False)] *)
Definition int_from_bytes (bs : list byte) : Z :=
  fold_left (λ acc b, acc * 256 + byte_val b) bs 0.

(** [int.from_bytes(f.read(n), byteorder='big')] *)
Definition read_int (n : nat) : io Z :=
  (do bs <- read n; io_ret (int_from_bytes bs))%io.

(** The byte of value [z mod 256]; used to write inputs down. *)
Definition byte_of (z : Z) : byte :=
  match Byte.of_N (Z.to_N (z mod 256)) with
  | Some b => b
  | None => "000"%byte
  end.

(** ** NumPy arrays *)

(** A three-dimensional array: its shape and its cells in C order, the
    cell [(r, c, k)] of an array of shape [(h, w, d)] at position
    [(r * w + c) * d + k]. *)
Record ndarray : Type := mk_ndarray {
  shape : Z * Z * Z;
  cells : list Z
}.

(** The array of shape [(h, w, d)] whose cells are all 0. *)
Definition blank3 (h w d : Z) : ndarray :=
  {| shape := (h, w, d); cells := replicate (Z.to_nat (h * w * d)) 0 |}.

(** The check of [np.zeros] on a shape of float64 cells: the extents
    that are not 0, multiplied together and by the 8 bytes of a cell,
    must fit a signed 64-bit size, also when an extent is 0 and the
    array has no cell. *)
Definition array_too_big (dims : list Z) : bool :=
  9223372036854775807
  <? 8 * fold_right (λ d acc, (if d =? 0 then 1 else d) * acc) 1 dims.

(** [np.zeros((h, w, d))] *)
Definition zeros3 (h w d : Z) : result ndarray :=
  if array_too_big [h; w; d] then Raise ValueError_zeros
  else Return (blank3 h w d).

(** [np.zeros((n))] *)
Definition zeros1 (n : Z) : result (list Z) :=
  if array_too_big [n] then Raise ValueError_zeros
  else Return (replicate (Z.to_nat n) 0).

(** The dtype of the sum [pixel_num + mult] of the counter and a
    [np.uint8]: uint8 under NumPy 2 and later, where a Python integer
    adapts to the NumPy scalar; under NumPy 1.x the default integer,
    int64, or int32 where the C long has 32 bits. *)
Inductive counter_dtype : Set := np_uint8 | np_int32 | np_int64.

(** The largest value of the dtype. *)
Definition counter_max (dt : counter_dtype) : Z :=
  match dt with
  | np_uint8 => 255
  | np_int32 => 2147483647
  | np_int64 => 9223372036854775807
  end.

(** [a + b] in the dtype: a sum out of range wraps around (NumPy warns
    and goes on). *)
Definition counter_add (dt : counter_dtype) (a b : Z) : Z :=
  match dt with
  | np_uint8 => (a + b) `mod` 256
  | np_int32 => (a + b + 2147483648) `mod` 4294967296 - 2147483648
  | np_int64 =>
      (a + b + 9223372036854775808) `mod` 18446744073709551616
      - 9223372036854775808
  end.

(** A bound of the slice [buf[start:stop]] of a sequence of [len]
    items, as Python adjusts it: a negative bound counts from the end,
    and a bound outside the sequence is moved to its nearer end. *)
Definition slice_index (len i : Z) : Z :=
  if i <? 0 then Z.max 0 (i + len) else Z.min i len.

(** [buf[start:stop] = np.repeat(num, mult)] for [0 <= mult].  The
    target is the slice of [buf]; the assignment broadcasts, which
    needs the two lengths equal or a source of length one. *)
Definition assign_repeat (buf : list Z) (start stop mult num : Z)
  : result (list Z) :=
  let a := slice_index (Z.of_nat (length buf)) start in
  let b := slice_index (Z.of_nat (length buf)) stop in
  let target := Z.max 0 (b - a) in
  if (mult =? target) || (mult =? 1)
  then Return (take (Z.to_nat a) buf
                 ++ replicate (Z.to_nat target) num
                 ++ drop (Z.to_nat (a + target)) buf)
  else Raise ValueError_broadcast.

(** [vol[:, :, k] = sl.reshape(h, w)] where [vol] has shape [(h, w, d)]
    and [sl] has [h * w] cells: the cell [(r, c, k)] receives
    [sl[r * w + c]], the other cells keep their value. *)
Definition assign_depth_slice (vol : ndarray) (k : Z) (sl : list Z) : ndarray :=
  let d := (shape vol).2 in
  {| shape := shape vol;
     cells := imap (λ idx old,
                       if Z.of_nat idx `mod` d =? k
                       then default old (sl !! (idx `div` Z.to_nat d)%nat)
                       else old)
                   (cells vol) |}.

(** ** The run-length decoder (the loops at the end of [from_file]) *)

(** A row of [maps_rle]: [(mult, num)]. *)
Abbreviation run := (byte * byte)%type.

(** [np.frombuffer(bs, dtype='uint8').reshape((-1, 2))] *)
Fixpoint reshape_pairs (bs : list byte) : result (list run) :=
  match bs with
  | [] => Return []
  | [_] => Raise ValueError_reshape
  | m :: v :: bs' => rbind (reshape_pairs bs') (λ rs, Return ((m, v) :: rs))
  end.

(** The innermost loop, [while pixel_num < self.width * self.height],
    with the dtype [dt] of [pixel_num + mult].  The row index [i] only
    grows, by one per turn: the rows from [i] on are the list [rle],
    and [maps_rle[i, :]] past the end raises. *)
Fixpoint fill_slice (dt : counter_dtype) (cap pixel_num : Z)
    (temp_slice : list Z) (rle : list run) : result (list Z * list run) :=
  if pixel_num <? cap then
    match rle with
    | [] => Raise IndexError_ndarray
    | (mult, num) :: rle' =>
        rbind (assign_repeat temp_slice pixel_num
                 (counter_add dt pixel_num (byte_val mult))
                 (byte_val mult) (byte_val num))
              (λ temp_slice',
                 fill_slice dt cap (counter_add dt pixel_num (byte_val mult))
                   temp_slice' rle')
    end
  else Return (temp_slice, rle).

(** The loop [while slice_num < self.depth], with [todo] the number of
    turns left, [depth - slice_num]. *)
Fixpoint fill_volume (dt : counter_dtype) (width height : Z) (todo : nat)
    (slice_num : Z) (temp_vol : ndarray) (rle : list run)
  : result (ndarray * list run) :=
  match todo with
  | O => Return (temp_vol, rle)
  | S todo' =>
      rbind (zeros1 (width * height))
            (λ temp_slice0,
               rbind (fill_slice dt (width * height) 0 temp_slice0 rle)
                     (λ '(temp_slice, rle'),
                        fill_volume dt width height todo' (slice_num + 1)
                          (assign_depth_slice temp_vol slice_num temp_slice)
                          rle'))
  end.

(** The loop [for _ in range(self.n_vols)]; [vols] is [self.vols]. *)
Fixpoint fill_volumes (dt : counter_dtype) (width height depth : Z) (n : nat)
    (vols : list ndarray) (rle : list run) : result (list ndarray) :=
  match n with
  | O => Return vols
  | S n' =>
      rbind (zeros3 height width depth)
            (λ temp_vol0,
               rbind (fill_volume dt width height (Z.to_nat depth) 0
                        temp_vol0 rle)
                     (λ '(temp_vol, rle'),
                        fill_volumes dt width height depth n'
                          (vols ++ [temp_vol]) rle'))
  end.

(** ** Object names *)

(** A Python [str]: its code points. *)
Definition str : Type := list Z.

(** [bytecode.split(b'\x00')[0]]: the bytes before the first null. *)
Fixpoint before_null (bs : list byte) : list byte :=
  match bs with
  | [] => []
  | b :: bs' => if byte_val b =? 0 then [] else b :: before_null bs'
  end.

Definition in_range (lo hi b : Z) : bool := (lo <=? b) && (b <=? hi).

(** [bs.decode('utf-8')] on the byte values [bs], with the default
    error handler 'strict': [None] stands for UnicodeDecodeError.
    Overlong forms, surrogates and code points above 0x10FFFF are
    rejected, as CPython does. *)
Fixpoint utf8_decode (bs : list Z) : option str :=
  match bs with
  | [] => Some []
  | b0 :: t0 =>
      if b0 <? 128 then cons b0 <$> utf8_decode t0
      else if in_range 194 223 b0 then
        match t0 with
        | b1 :: t1 =>
            if in_range 128 191 b1
            then cons ((b0 - 192) * 64 + (b1 - 128)) <$> utf8_decode t1
            else None
        | _ => None
        end
      else if in_range 224 239 b0 then
        match t0 with
        | b1 :: b2 :: t2 =>
            if in_range (if b0 =? 224 then 160 else 128)
                        (if b0 =? 237 then 159 else 191) b1
               && in_range 128 191 b2
            then cons ((b0 - 224) * 4096 + (b1 - 128) * 64 + (b2 - 128))
                   <$> utf8_decode t2
            else None
        | _ => None
        end
      else if in_range 240 244 b0 then
        match t0 with
        | b1 :: b2 :: b3 :: t3 =>
            if in_range (if b0 =? 240 then 144 else 128)
                        (if b0 =? 244 then 143 else 191) b1
               && in_range 128 191 b2 && in_range 128 191 b3
            then cons ((b0 - 240) * 262144 + (b1 - 128) * 4096
                       + (b2 - 128) * 64 + (b3 - 128))
                   <$> utf8_decode t3
            else None
        | _ => None
        end
      else None
  end.

(** [AnalyzeSpatialMap._read_nts] *)
Definition _read_nts (bytecode : list byte) : result str :=
  match utf8_decode (byte_val <$> before_null bytecode) with
  | Some s => Return s
  | None => Raise UnicodeDecodeError
  end.

(** ** Python values of the two float fields *)

#[local] Set Warnings "-register-all".
Inductive pyval : Type :=
  | PyFloat (raw : list byte)      (* a float, as the bytes of its binary32 form *)
  | PyTuple (items : list pyval).  (* a tuple *)

(** The float [0.0]. *)
Definition float_zero : pyval := PyFloat (replicate 4 "000"%byte).

(** [struct.unpack('f', buf)]: one float in native byte order; the
    buffer must hold exactly four bytes.  The value is always a tuple,
    here of one item. *)
Definition struct_unpack_f (buf : list byte) : result pyval :=
  if (length buf =? 4)%nat then Return (PyTuple [PyFloat buf])
  else Raise struct_error.

(** ** [SpatialObject] *)

Record SpatialObject : Type := mk_SpatialObject {
  name : str;
  display_flag : Z;
  copy_flag : Z;
  mirror : Z;
  status : Z;
  n_used : Z;
  shades : Z;
  s_red : Z;
  s_green : Z;
  s_blue : Z;
  e_red : Z;
  e_green : Z;
  e_blue : Z;
  x_rot : Z;
  y_rot : Z;
  z_rot : Z;
  x_shift : Z;
  y_shift : Z;
  z_shift : Z;
  x_center : Z;
  y_center : Z;
  z_center : Z;
  i_xrot : Z;
  i_yrot : Z;
  i_zrot : Z;
  i_xshift : Z;
  i_yshift : Z;
  i_zshift : Z;
  min_x : Z;
  min_y : Z;
  min_z : Z;
  max_x : Z;
  max_y : Z;
  max_z : Z;
  opacity : pyval;
  opacity_thick : Z;
  blendfactor : pyval
}.

(** [SpatialObject()] *)
Definition SpatialObject_init : SpatialObject :=
  {| name := [];
     display_flag := 0;
     copy_flag := 0;
     mirror := 0;
     status := 0;
     n_used := 0;
     shades := 0;
     s_red := 0;
     s_green := 0;
     s_blue := 0;
     e_red := 0;
     e_green := 0;
     e_blue := 0;
     x_rot := 0;
     y_rot := 0;
     z_rot := 0;
     x_shift := 0;
     y_shift := 0;
     z_shift := 0;
     x_center := 0;
     y_center := 0;
     z_center := 0;
     i_xrot := 0;
     i_yrot := 0;
     i_zrot := 0;
     i_xshift := 0;
     i_yshift := 0;
     i_zshift := 0;
     min_x := 0;
     min_y := 0;
     min_z := 0;
     max_x := 0;
     max_y := 0;
     max_z := 0;
     opacity := float_zero;
     opacity_thick := 0;
     blendfactor := float_zero |}.

(** [self._read_nts(f.read(n))] *)
Definition read_name (n : nat) : io str :=
  λ s, rbind (_read_nts (take n s)) (λ v, Return (v, drop n s)).

(** [struct.unpack('f', f.read(4))] *)
Definition read_float : io pyval :=
  λ s, rbind (struct_unpack_f (take 4 s)) (λ v, Return (v, drop 4 s)).

(** The body of the loop [for i in range(self.n_objects)]: the reads
    that fill one [SpatialObject], in the order of the source. *)
Definition read_object : io SpatialObject :=
  (do name_ <- read_name 32;
   do display_flag_ <- read_int 4;
   do copy_flag_ <- read_int 1;
   do mirror_ <- read_int 1;
   do status_ <- read_int 1;
   do n_used_ <- read_int 1;
   do shades_ <- read_int 4;
   do s_red_ <- read_int 4;
   do s_green_ <- read_int 4;
   do s_blue_ <- read_int 4;
   do e_red_ <- read_int 4;
   do e_green_ <- read_int 4;
   do e_blue_ <- read_int 4;
   do x_rot_ <- read_int 4;
   do y_rot_ <- read_int 4;
   do z_rot_ <- read_int 4;
   do x_shift_ <- read_int 4;
   do y_shift_ <- read_int 4;
   do z_shift_ <- read_int 4;
   do x_center_ <- read_int 4;
   do y_center_ <- read_int 4;
   do z_center_ <- read_int 4;
   do i_xrot_ <- read_int 4;
   do i_yrot_ <- read_int 4;
   do i_zrot_ <- read_int 4;
   do i_xshift_ <- read_int 4;
   do i_yshift_ <- read_int 4;
   do i_zshift_ <- read_int 4;
   do min_x_ <- read_int 2;
   do min_y_ <- read_int 2;
   do min_z_ <- read_int 2;
   do max_x_ <- read_int 2;
   do max_y_ <- read_int 2;
   do max_z_ <- read_int 2;
   do opacity_ <- read_float;
   do opacity_thick_ <- read_int 4;
   do blendfactor_ <- read_float;
   io_ret {| name := name_;
             display_flag := display_flag_;
             copy_flag := copy_flag_;
             mirror := mirror_;
             status := status_;
             n_used := n_used_;
             shades := shades_;
             s_red := s_red_;
             s_green := s_green_;
             s_blue := s_blue_;
             e_red := e_red_;
             e_green := e_green_;
             e_blue := e_blue_;
             x_rot := x_rot_;
             y_rot := y_rot_;
             z_rot := z_rot_;
             x_shift := x_shift_;
             y_shift := y_shift_;
             z_shift := z_shift_;
             x_center := x_center_;
             y_center := y_center_;
             z_center := z_center_;
             i_xrot := i_xrot_;
             i_yrot := i_yrot_;
             i_zrot := i_zrot_;
             i_xshift := i_xshift_;
             i_yshift := i_yshift_;
             i_zshift := i_zshift_;
             min_x := min_x_;
             min_y := min_y_;
             min_z := min_z_;
             max_x := max_x_;
             max_y := max_y_;
             max_z := max_z_;
             opacity := opacity_;
             opacity_thick := opacity_thick_;
             blendfactor := blendfactor_ |})%io.

(** The loop [for i in range(self.n_objects)], with [n] the number of
    turns left and [objects] the list [self.objects]. *)
Fixpoint read_objects (n : nat) (objects : list SpatialObject)
  : io (list SpatialObject) :=
  match n with
  | O => io_ret objects
  | S n' => (do obj <- read_object; read_objects n' (objects ++ [obj]))%io
  end.

(** The loop [for i in range(header_ints)] that fills [header]. *)
Fixpoint read_header (n : nat) (header : list Z) : io (list Z) :=
  match n with
  | O => io_ret header
  | S n' => (do v <- read_int 4; read_header n' (header ++ [v]))%io
  end.

(** ** [AnalyzeSpatialMap] *)

Record AnalyzeSpatialMap : Type := mk_AnalyzeSpatialMap {
  version_code : Z;
  version : Z;
  width : Z;
  height : Z;
  depth : Z;
  n_objects : Z;
  n_vols : Z;
  objects : list SpatialObject;
  vols : list ndarray
}.

(** [AnalyzeSpatialMap()], before any file is read. *)
Definition AnalyzeSpatialMap_init : AnalyzeSpatialMap :=
  {| version_code := 0; version := 0; width := 0; height := 0; depth := 0;
     n_objects := 0; n_vols := 1; objects := []; vols := [] |}.

(** A computation that cannot read, run inside [io]. *)
Definition io_lift {A} (r : result A) : io A :=
  λ s, rbind r (λ a, Return (a, s)).

(** [AnalyzeSpatialMap.from_file] on the object [self] and the content
    of the file (with [verbose=0]), under a NumPy that gives the dtype
    [dt] to [pixel_num + mult].  The result is the object after the
    call; when an exception leaves the call there is none.  The list
    [header] holds [header_ints] entries, four at least, so that its
    indexing cannot fail. *)
Definition from_file (dt : counter_dtype) (self : AnalyzeSpatialMap)
  : io AnalyzeSpatialMap :=
  (do version_code_ <- read_int 4;
   let version_ := if version_code_ <? 20050829 then 6 else 7 in
   let header_ints := if version_code_ <? 20050829 then 4%nat else 5%nat in
   do header <- read_header header_ints [];
   let width_ := nth 0 header 0 in
   let height_ := nth 1 header 0 in
   let depth_ := nth 2 header 0 in
   let n_objects_ := nth 3 header 0 in
   let n_vols_ := if version_ >? 7 then nth 4 header 0 else n_vols self in
   do objects_ <- read_objects (Z.to_nat n_objects_) (objects self);
   do rest <- read_all;
   do maps_rle <- io_lift (reshape_pairs rest);
   do vols_ <- io_lift (fill_volumes dt width_ height_ depth_
                          (Z.to_nat n_vols_) (vols self) maps_rle);
   io_ret {| version_code := version_code_; version := version_;
             width := width_; height := height_; depth := depth_;
             n_objects := n_objects_; n_vols := n_vols_;
             objects := objects_; vols := vols_ |})%io.

(** [AnalyzeSpatialMap(file=...)] on a file of content [s]: the
    decoder's entry point. *)
Definition decode (dt : counter_dtype) (s : stream)
  : result AnalyzeSpatialMap :=
  rbind (from_file dt AnalyzeSpatialMap_init s) (λ '(self, _), Return self).

(** [l[idx]] on a Python list: a negative index counts from the end. *)
Definition list_getitem {A} (l : list A) (idx : Z) : result A :=
  let j := if idx <? 0 then idx + Z.of_nat (length l) else idx in
  if j <? 0 then Raise IndexError_list
  else match l !! Z.to_nat j with
       | Some x => Return x
       | None => Raise IndexError_list
       end.

(** [AnalyzeSpatialMap.get_data]: the value returned or the exception
    raised, and the object after the call. *)
Definition get_data (self : AnalyzeSpatialMap) (idx : Z)
  : result ndarray * AnalyzeSpatialMap :=
  (list_getitem (vols self) idx, self).

(** Inputs are written as lists of byte values. *)
Definition bytes (l : list Z) : stream := byte_of <$> l.

(** The four bytes of [v] in big-endian order. *)
Definition u32_be (v : Z) : list Z :=
  [(v `div` 16777216) `mod` 256; (v `div` 65536) `mod` 256;
   (v `div` 256) `mod` 256; v `mod` 256].

(** ** The stages of [from_file]

    [from_file] is one straight-line function.  To speak of the bytes
    that remain after the object table, it is cut in two at the comment
    "Read in the reminader of the file": [read_tables] is the part
    before it, [read_volumes] the part after it (lemma
    [from_file_stages]). *)

Definition read_tables (self : AnalyzeSpatialMap) : io AnalyzeSpatialMap :=
  (do version_code_ <- read_int 4;
   let version_ := if version_code_ <? 20050829 then 6 else 7 in
   let header_ints := if version_code_ <? 20050829 then 4%nat else 5%nat in
   do header <- read_header header_ints [];
   let n_objects_ := nth 3 header 0 in
   do objects_ <- read_objects (Z.to_nat n_objects_) (objects self);
   io_ret {| version_code := version_code_; version := version_;
             width := nth 0 header 0; height := nth 1 header 0;
             depth := nth 2 header 0; n_objects := n_objects_;
             n_vols := if version_ >? 7 then nth 4 header 0 else n_vols self;
             objects := objects_; vols := vols self |})%io.

Definition read_volumes (dt : counter_dtype) (self : AnalyzeSpatialMap)
  : io AnalyzeSpatialMap :=
  (do rest <- read_all;
   do maps_rle <- io_lift (reshape_pairs rest);
   do vols_ <- io_lift (fill_volumes dt (width self) (height self)
                          (depth self) (Z.to_nat (n_vols self)) (vols self)
                          maps_rle);
   io_ret {| version_code := version_code self; version := version self;
             width := width self; height := height self; depth := depth self;
             n_objects := n_objects self; n_vols := n_vols self;
             objects := objects self; vols := vols_ |})%io.

(** The end position of the runs [rs] written one after the other into
    a slice of [cap] cells from position [p] on, when each of them is
    taken up by the loop of [fill_slice] ([p < cap] before it) and fits
    in the cells that are left. *)
Fixpoint written (cap p : Z) (rs : list run) : option Z :=
  match rs with
  | [] => Some p
  | (mult, _) :: rs' =>
      if (p <? cap) && (p + byte_val mult <=? cap)
      then written cap (p + byte_val mult) rs'
      else None
  end.

(** The cells that the runs [rs] stand for: [np.repeat(num, mult)] for
    each of them, one after the other. *)
Definition expand (rs : list run) : list Z :=
  flat_map (λ '(mult, num), replicate (Z.to_nat (byte_val mult)) (byte_val num))
           rs.

(** The slices [sls] assigned to the depths [k], [k + 1], ... of [vol],
    as the loop of [fill_volume] does with the slices it has filled. *)
Fixpoint place_slices (vol : ndarray) (k : Z) (sls : list (list Z)) : ndarray :=
  match sls with
  | [] => vol
  | sl :: sls' => place_slices (assign_depth_slice vol k sl) (k + 1) sls'
  end.

(** The header part of [read_tables]: the version code and the list
    [header]. *)
Definition read_head : io (Z * list Z) :=
  (do version_code_ <- read_int 4;
   let header_ints := if version_code_ <? 20050829 then 4%nat else 5%nat in
   do header <- read_header header_ints [];
   io_ret (version_code_, header))%io.

(** ** The encoder of the round-trip property *)

(** Modelled from the spec: the encoder of the round-trip property, "the
    inverse of the decoding scheme, collapsing a dense volume into
    (length, value) runs".  The repository holds a reader only.
    [collapse] turns the cells of one slice into its maximal runs. *)
Fixpoint collapse (sl : list Z) : list (nat * Z) :=
  match sl with
  | [] => []
  | x :: sl' =>
      match collapse sl' with
      | (n, y) :: rs =>
          if x =? y then (S n, y) :: rs else (1%nat, x) :: (n, y) :: rs
      | [] => [(1%nat, x)]
      end
  end.

(** Modelled from the spec: the slice of depth [k] of a volume, its
    cells [(r, c, k)] in row-major order. *)
Definition depth_slice (vol : ndarray) (k : nat) : list Z :=
  let '(h, w, d) := shape vol in
  (λ p, default 0 (cells vol !! (p * Z.to_nat d + k)%nat))
    <$> seq 0 (Z.to_nat (h * w)).

(** Modelled from the spec: the byte pairs of the runs of a volume,
    slice after slice. *)
Definition encode_rle (vol : ndarray) : list Z :=
  let '(h, w, d) := shape vol in
  flat_map (λ k, flat_map (λ '(n, v), [Z.of_nat n; v])
                   (collapse (depth_slice vol k)))
           (seq 0 (Z.to_nat d)).

(** Modelled from the spec: a file that holds the volume [vol] alone,
    with a version 6 header and no object. *)
Definition encode (vol : ndarray) : stream :=
  let '(h, w, d) := shape vol in
  bytes (u32_be 1 ++ u32_be w ++ u32_be h ++ u32_be d ++ u32_be 0
         ++ encode_rle vol).

(** A dense volume that a file can hold: extents of 32 bits, as many
    cells as the shape says, each a byte value. *)
Definition dense_volume (vol : ndarray) : bool :=
  let '(h, w, d) := shape vol in
  in_range 0 4294967295 h && in_range 0 4294967295 w
  && in_range 0 4294967295 d
  && (length (cells vol) =? Z.to_nat (h * w * d))%nat
  && forallb (in_range 0 255) (cells vol).

(** Every run of every slice has at most 255 cells. *)
Definition runs_fit (vol : ndarray) : bool :=
  forallb (λ k, forallb (λ '(n, _), (n <=? 255)%nat)
                  (collapse (depth_slice vol k)))
          (seq 0 (Z.to_nat (shape vol).2)).

(** The rows that stand for the runs [rs]. *)
Definition rows_of (rs : list (nat * Z)) : list run :=
  (λ '(n, v), (byte_of (Z.of_nat n), byte_of v)) <$> rs.

(** ** Files and values used as examples *)

(** A version 7 file that announces two volumes of one cell each. *)
Definition two_volume_file : stream :=
  bytes (u32_be 20050829 ++ u32_be 1 ++ u32_be 1 ++ u32_be 1 ++ u32_be 0
         ++ u32_be 2 ++ [1; 7; 1; 8]).

(** The example file: version code 1, width 2, height 2, depth 1, no
    object, and the one run (4, 7). *)
Definition example_file : stream :=
  bytes (u32_be 1 ++ u32_be 2 ++ u32_be 2 ++ u32_be 1 ++ u32_be 0 ++ [4; 7]).

(** The map that [example_file] decodes to. *)
Definition example_map : AnalyzeSpatialMap :=
  {| version_code := 1; version := 6; width := 2; height := 2; depth := 1;
     n_objects := 0; n_vols := 1; objects := [];
     vols := [{| shape := (2, 2, 1); cells := [7; 7; 7; 7] |}] |}.

(** The example file with one more byte at its end. *)
Definition odd_file : stream := example_file ++ bytes [1].

(** The spec's example: width 2, height 2 and a first run of length 5. *)
Definition overflow_file : stream :=
  bytes (u32_be 1 ++ u32_be 2 ++ u32_be 2 ++ u32_be 1 ++ u32_be 0 ++ [5; 7]).

(** A file of twelve bytes: a version code, a width and a height; the
    depth and the object count are missing. *)
Definition short_header_file : stream :=
  bytes (u32_be 1 ++ u32_be 2 ++ u32_be 2).

(** A file that declares one object and holds 100 bytes of its record. *)
Definition short_object_file : stream :=
  bytes (u32_be 1 ++ u32_be 2 ++ u32_be 2 ++ u32_be 1 ++ u32_be 1
         ++ replicate 100 0).

(** A file with one object named "a", of opacity bytes 00 00 80 3f and
    blend factor bytes 00 00 00 3f, and no cell. *)
Definition one_object_file : stream :=
  bytes (u32_be 1 ++ u32_be 0 ++ u32_be 0 ++ u32_be 0 ++ u32_be 1
         ++ [97] ++ replicate 31 0 ++ replicate 108 0
         ++ [0; 0; 128; 63] ++ u32_be 0 ++ [0; 0; 0; 63]).

(** A volume of two rows, two columns and two slices. *)
Definition small_volume : ndarray :=
  {| shape := (2, 2, 2); cells := [1; 3; 1; 4; 2; 4; 2; 4] |}.

(** A file whose one object has a name slot that starts with the byte
    0xFF, and nothing after that byte. *)
Definition bad_name_file : stream :=
  bytes (u32_be 1 ++ u32_be 0 ++ u32_be 0 ++ u32_be 0 ++ u32_be 1 ++ [255]).

(** A file of two by two cells and one slice, with the one run (3, 7):
    the rows end one cell short. *)
Definition exhausted_file : stream :=
  bytes (u32_be 1 ++ u32_be 2 ++ u32_be 2 ++ u32_be 1 ++ u32_be 0 ++ [3; 7]).

(** A file of two columns, three rows and two slices, followed by one
    row that no slice needs. *)
Definition layout_file : stream :=
  bytes (u32_be 1 ++ u32_be 2 ++ u32_be 3 ++ u32_be 2 ++ u32_be 0
         ++ [2; 1; 4; 2; 1; 3; 1; 4; 1; 5; 3; 6; 9; 9]).

(** The tables of [layout_file]. *)
Definition layout_tables : AnalyzeSpatialMap :=
  {| version_code := 1; version := 6; width := 2; height := 3; depth := 2;
     n_objects := 0; n_vols := 1; objects := []; vols := [] |}.

(** The rows of the two slices of [layout_file]. *)
Definition layout_slices : list (list run) :=
  [[(byte_of 2, byte_of 1); (byte_of 4, byte_of 2)];
   [(byte_of 1, byte_of 3); (byte_of 1, byte_of 4); (byte_of 1, byte_of 5);
    (byte_of 3, byte_of 6)]].

(** A file of two columns and three rows but no slice, followed by two
    rows. *)
Definition flat_file : stream :=
  bytes (u32_be 1 ++ u32_be 2 ++ u32_be 3 ++ u32_be 0 ++ u32_be 0
         ++ [5; 7; 1; 2]).

(** The tables of [flat_file]. *)
Definition flat_tables : AnalyzeSpatialMap :=
  {| version_code := 1; version := 6; width := 2; height := 3; depth := 0;
     n_objects := 0; n_vols := 1; objects := []; vols := [] |}.

(** The object after [from_file] is called on [example_map] with
    [example_file]: the map of a second read of the same file. *)
Definition example_map_twice : AnalyzeSpatialMap :=
  {| version_code := 1; version := 6; width := 2; height := 2; depth := 1;
     n_objects := 0; n_vols := 1; objects := [];
     vols := [{| shape := (2, 2, 1); cells := [7; 7; 7; 7] |};
              {| shape := (2, 2, 1); cells := [7; 7; 7; 7] |}] |}.

(** The object of [one_object_file]. *)
Definition one_object : SpatialObject :=
  {| name := [97];
     display_flag := 0; copy_flag := 0; mirror := 0; status := 0;
     n_used := 0; shades := 0; s_red := 0; s_green := 0; s_blue := 0;
     e_red := 0; e_green := 0; e_blue := 0; x_rot := 0; y_rot := 0;
     z_rot := 0; x_shift := 0; y_shift := 0; z_shift := 0; x_center := 0;
     y_center := 0; z_center := 0; i_xrot := 0; i_yrot := 0; i_zrot := 0;
     i_xshift := 0; i_yshift := 0; i_zshift := 0; min_x := 0; min_y := 0;
     min_z := 0; max_x := 0; max_y := 0; max_z := 0;
     opacity := PyTuple [PyFloat (bytes [0; 0; 128; 63])];
     opacity_thick := 0;
     blendfactor := PyTuple [PyFloat (bytes [0; 0; 0; 63])] |}.

(** The map that [one_object_file] decodes to. *)
Definition one_object_map : AnalyzeSpatialMap :=
  {| version_code := 1; version := 6; width := 0; height := 0; depth := 0;
     n_objects := 1; n_vols := 1; objects := [one_object];
     vols := [{| shape := (0, 0, 0); cells := [] |}] |}.

(** A file of twenty columns, fifteen rows and one slice, whose runs
    of 255, 1 and 43 cells reach the cell 299 of the 300, followed by a
    run of two cells. *)
Definition wrapped_counter_file : stream :=
  bytes (u32_be 1 ++ u32_be 20 ++ u32_be 15 ++ u32_be 1 ++ u32_be 0
         ++ [255; 1; 1; 1; 43; 1; 2; 9]).

(** The tables of [wrapped_counter_file]. *)
Definition wrapped_counter_tables : AnalyzeSpatialMap :=
  {| version_code := 1; version := 6; width := 20; height := 15; depth := 1;
     n_objects := 0; n_vols := 1; objects := []; vols := [] |}.

(** A volume of sixteen rows, sixteen columns and one slice: 255 cells
    of value 1 and a last cell of value 2. *)
Definition wide_volume : ndarray :=
  {| shape := (16, 16, 1); cells := replicate 255 1 ++ [2] |}.

(** A file of twelve bytes whose width and height are 2^30: the depth
    is missing and read as 0, so the volume has no cell. *)
Definition huge_extent_file : stream :=
  bytes (u32_be 1 ++ u32_be 1073741824 ++ u32_be 1073741824).

(** The tables of [huge_extent_file]. *)
Definition huge_extent_tables : AnalyzeSpatialMap :=
  {| version_code := 1; version := 6; width := 1073741824;
     height := 1073741824; depth := 0; n_objects := 0; n_vols := 1;
     objects := []; vols := [] |}.

(** A volume without a cell: 2^30 rows, 2^30 columns and no slice. *)
Definition huge_empty_volume : ndarray :=
  {| shape := (1073741824, 1073741824, 0); cells := [] |}.

(** ** Notions used to state the properties *)

(** [vol[r, c, k]] on a three-dimensional array: a negative index counts
    from the end of its axis, and [None] stands for IndexError. *)
Definition item3 (vol : ndarray) (r c k : Z) : option Z :=
  let '(h, w, d) := shape vol in
  let r' := if r <? 0 then r + h else r in
  let c' := if c <? 0 then c + w else c in
  let k' := if k <? 0 then k + d else k in
  if in_range 0 (h - 1) r' && in_range 0 (w - 1) c' && in_range 0 (d - 1) k'
  then cells vol !! Z.to_nat ((r' * w + c') * d + k')
  else None.

(** The number of bytes of the header and the object table of a map:
    the version code, four or five header integers, 152 bytes for each
    object. *)
Definition tables_size (m : AnalyzeSpatialMap) : nat :=
  4 + 4 * (if version_code m <? 20050829 then 4 else 5)
  + 152 * Z.to_nat (n_objects m).

(** An unsigned integer of [n] bytes. *)
Definition unsigned (n : nat) (v : Z) : Prop := 0 ≤ v < 256 ^ Z.of_nat n.

(** Every integer field of an object is an unsigned integer of the
    width that [from_file] reads for it. *)
Definition object_unsigned (o : SpatialObject) : Prop :=
  unsigned 4 (display_flag o)
  ∧ unsigned 1 (copy_flag o)
  ∧ unsigned 1 (mirror o)
  ∧ unsigned 1 (status o)
  ∧ unsigned 1 (n_used o)
  ∧ unsigned 4 (shades o)
  ∧ unsigned 4 (s_red o)
  ∧ unsigned 4 (s_green o)
  ∧ unsigned 4 (s_blue o)
  ∧ unsigned 4 (e_red o)
  ∧ unsigned 4 (e_green o)
  ∧ unsigned 4 (e_blue o)
  ∧ unsigned 4 (x_rot o)
  ∧ unsigned 4 (y_rot o)
  ∧ unsigned 4 (z_rot o)
  ∧ unsigned 4 (x_shift o)
  ∧ unsigned 4 (y_shift o)
  ∧ unsigned 4 (z_shift o)
  ∧ unsigned 4 (x_center o)
  ∧ unsigned 4 (y_center o)
  ∧ unsigned 4 (z_center o)
  ∧ unsigned 4 (i_xrot o)
  ∧ unsigned 4 (i_yrot o)
  ∧ unsigned 4 (i_zrot o)
  ∧ unsigned 4 (i_xshift o)
  ∧ unsigned 4 (i_yshift o)
  ∧ unsigned 4 (i_zshift o)
  ∧ unsigned 2 (min_x o)
  ∧ unsigned 2 (min_y o)
  ∧ unsigned 2 (min_z o)
  ∧ unsigned 2 (max_x o)
  ∧ unsigned 2 (max_y o)
  ∧ unsigned 2 (max_z o)
  ∧ unsigned 4 (opacity_thick o).

(** The volumes that the decoder can hold when [pixel_num + mult] has
    the dtype [dt]: [np.zeros] accepts the shape and, when there is a
    slice to fill, the dtype can count the cells of a slice. *)
Definition decoder_holds (dt : counter_dtype) (vol : ndarray) : bool :=
  let '(h, w, d) := shape vol in
  negb (array_too_big [h; w; d])
  && ((d =? 0) || (w * h <=? counter_max dt)).

(** ** Proof tactics *)

(** The reads of [read_object] laid out on the stream. *)
Ltac unfold_reads :=
  cbv beta iota delta
    [read_object io_bind read_int read io_ret read_float read_name rbind].

(** The next [struct.unpack]: either four bytes are there or not. *)
Ltac case_unpack E :=
  unfold struct_unpack_f;
  rewrite ?drop_drop, ?length_take, ?length_drop; cbn [Nat.add];
  destruct (_ =? 4)%nat eqn:E;
  [apply Nat.eqb_eq in E|apply Nat.eqb_neq in E].

(** Arithmetic goals under boolean conjunctions of comparisons. *)
Ltac bool_lia :=
  repeat match goal with
    | H : (_ && _) = true |- _ => apply andb_true_iff in H as [? ?]
    | H : (_ && _) = false |- _ => apply andb_false_iff in H as [?|?]
    | H : (_ <=? _) = true |- _ => apply Z.leb_le in H
    | H : (_ <=? _) = false |- _ => apply Z.leb_gt in H
    | H : (_ <? _) = true |- _ => apply Z.ltb_lt in H
    | H : (_ <? _) = false |- _ => apply Z.ltb_ge in H
    | H : (_ =? _) = true |- _ => apply Z.eqb_eq in H
    | H : (_ =? _) = false |- _ => apply Z.eqb_neq in H
    end; lia.

(** * Properties *)

(** ** Reading never fails on integers *)

Lemma byte_val_range b : 0 ≤ byte_val b ≤ 255.
Proof.
  unfold byte_val. pose proof (Byte.to_N_bounded b). lia.
Qed.

Lemma read_int_eq n s :
  read_int n s = Return (int_from_bytes (take n s), drop n s).
Proof. reflexivity. Qed.

Lemma read_header_eq n : ∀ hd s,
  ∃ vs, length vs = n ∧ read_header n hd s = Return (hd ++ vs, drop (4 * n) s).
Proof.
  induction n as [|n IH]; intros hd s.
  - exists []. split; [done|]. cbn. by rewrite app_nil_r.
  - cbn [read_header]. unfold io_bind. rewrite read_int_eq.
    destruct (IH (hd ++ [int_from_bytes (take 4 s)]) (drop 4 s))
      as (vs & Hlen & ->).
    exists (int_from_bytes (take 4 s) :: vs). split; [cbn; lia|].
    rewrite <- app_assoc, drop_drop. do 2 f_equal. f_equal. lia.
Qed.

Lemma from_file_stages dt self s :
  from_file dt self s = (do m <- read_tables self; read_volumes dt m)%io s.
Proof.
  unfold from_file, read_tables, read_volumes, io_bind.
  rewrite read_int_eq.
  destruct (read_header _ [] _) as [[header s1]|e]; [|done].
  destruct (read_objects _ _ s1) as [[objs s2]|e]; [|done].
  cbn. destruct (reshape_pairs s2) as [rle|e]; [|done].
  cbn. destruct (fill_volumes _ _ _ _ _ _ _) as [vs|e]; done.
Qed.

(** [read_tables] leaves the volume count and the volumes as they were:
    the test [self.version > 7] never holds, the version being 6 or 7. *)
Lemma read_tables_keeps self s t rest :
  read_tables self s = Return (t, rest) →
  n_vols t = n_vols self ∧ vols t = vols self
  ∧ version t = (if version_code t <? 20050829 then 6 else 7).
Proof.
  unfold read_tables, io_bind. rewrite read_int_eq.
  destruct (read_header _ [] _) as [[header s1]|e]; [|done].
  destruct (read_objects _ _ s1) as [[objs s2]|e]; [|done].
  cbn. intros [= <- <-]. cbn.
  by destruct (int_from_bytes (take 4 s) <? 20050829).
Qed.

Lemma fold_bytes_nonneg bs : ∀ acc,
  0 ≤ acc → 0 ≤ fold_left (λ acc b, acc * 256 + byte_val b) bs acc.
Proof.
  induction bs as [|b bs IH]; intros acc Hacc; [done|].
  cbn [fold_left]. apply IH. pose proof (byte_val_range b). lia.
Qed.

Lemma int_from_bytes_nonneg bs : 0 ≤ int_from_bytes bs.
Proof. by apply fold_bytes_nonneg. Qed.

Lemma read_header_nonneg n : ∀ hd s hd' s',
  Forall (λ v, 0 ≤ v) hd →
  read_header n hd s = Return (hd', s') → Forall (λ v, 0 ≤ v) hd'.
Proof.
  induction n as [|n IH]; intros hd s hd' s' Hhd.
  - by intros [= <- <-].
  - cbn [read_header]. unfold io_bind. rewrite read_int_eq. apply IH.
    apply Forall_app. split; [done|].
    constructor; [apply int_from_bytes_nonneg|constructor].
Qed.

Lemma nth_nonneg (l : list Z) i : Forall (λ v, 0 ≤ v) l → 0 ≤ nth i l 0.
Proof.
  intros Hl. destruct (nth_in_or_default i l 0) as [Hin| ->]; [|done].
  by apply (proj1 (Forall_forall _ _) Hl), list_elem_of_In.
Qed.

(** The extents read from the header are not negative. *)
Lemma read_tables_nonneg self s t rest :
  read_tables self s = Return (t, rest) →
  0 ≤ width t ∧ 0 ≤ height t ∧ 0 ≤ depth t.
Proof.
  unfold read_tables, io_bind. rewrite read_int_eq.
  destruct (read_header _ [] _) as [[header s1]|e] eqn:Hh; [|done].
  apply read_header_nonneg in Hh; [|constructor].
  destruct (read_objects _ _ s1) as [[objs s2]|e]; [|done].
  cbn. intros [= <- <-]. cbn. auto using nth_nonneg.
Qed.

(** ** The counter and the assignment to a slice *)

Lemma counter_max_255 dt : 255 ≤ counter_max dt.
Proof. by destruct dt. Qed.

(** A sum that the dtype can hold is the sum. *)
Lemma counter_add_exact dt a b :
  0 ≤ a → 0 ≤ b → a + b ≤ counter_max dt → counter_add dt a b = a + b.
Proof.
  intros Ha Hb Hab. destruct dt; cbn [counter_add counter_max] in *;
    rewrite Z.mod_small by lia; lia.
Qed.

(** Whatever is added, the counter stays in its dtype. *)
Lemma counter_add_max dt a b : counter_add dt a b ≤ counter_max dt.
Proof.
  destruct dt; cbn [counter_add counter_max].
  - pose proof (Z.mod_pos_bound (a + b) 256). lia.
  - pose proof (Z.mod_pos_bound (a + b + 2147483648) 4294967296). lia.
  - pose proof (Z.mod_pos_bound (a + b + 9223372036854775808)
                  18446744073709551616). lia.
Qed.

Lemma slice_index_range len i : 0 ≤ len → 0 ≤ slice_index len i ≤ len.
Proof.
  intros Hlen. unfold slice_index. destruct (i <? 0) eqn:E; bool_lia.
Qed.

Lemma slice_index_inside len i : 0 ≤ i ≤ len → slice_index len i = i.
Proof.
  intros Hi. unfold slice_index. destruct (i <? 0) eqn:E; [lia|]. lia.
Qed.

Lemma assign_repeat_fits buf start mult num :
  0 ≤ start → 0 ≤ mult → start + mult ≤ Z.of_nat (length buf) →
  assign_repeat buf start (start + mult) mult num
  = Return (take (Z.to_nat start) buf ++ replicate (Z.to_nat mult) num
              ++ drop (Z.to_nat (start + mult)) buf).
Proof.
  intros Hs Hm Hfit. unfold assign_repeat.
  rewrite !slice_index_inside by lia.
  replace (Z.max 0 (start + mult - start)) with mult by lia.
  by rewrite Z.eqb_refl.
Qed.

(** A source longer than the cells from [start] to the end of the
    buffer is refused, wherever the slice is meant to stop. *)
Lemma assign_repeat_overflow buf start stop mult num :
  0 ≤ start < Z.of_nat (length buf) →
  Z.of_nat (length buf) - start < mult →
  assign_repeat buf start stop mult num = Raise ValueError_broadcast.
Proof.
  intros Hs Hover. unfold assign_repeat.
  rewrite (slice_index_inside _ start) by lia.
  pose proof (slice_index_range (Z.of_nat (length buf)) stop ltac:(lia)).
  destruct (mult =? _) eqn:E1; [lia|].
  destruct (mult =? 1) eqn:E2; [lia|]. done.
Qed.

(** ** Runs and slices *)

Lemma written_le cap rs : ∀ p q, written cap p rs = Some q → p ≤ q.
Proof.
  induction rs as [|[mult num] rs IH]; intros p q Hw.
  - injection Hw as <-. lia.
  - cbn [written] in Hw. destruct (_ && _); [|done].
    apply IH in Hw. pose proof (byte_val_range mult). lia.
Qed.

Lemma written_expand cap rs : ∀ p q,
  written cap p rs = Some q → q = p + Z.of_nat (length (expand rs)).
Proof.
  induction rs as [|[mult num] rs IH]; intros p q Hw.
  - injection Hw as <-. cbn. lia.
  - cbn [written] in Hw. destruct (_ && _); [|done].
    apply IH in Hw. pose proof (byte_val_range mult).
    cbn [expand flat_map]. rewrite length_app, length_replicate.
    fold (expand rs). lia.
Qed.

(** Runs that fit are taken up one after the other, and leave their
    cells in the slice, when the dtype of the counter can hold the
    capacity of the slice. *)
Lemma fill_slice_written dt cap rs : ∀ p buf q rest,
  written cap p rs = Some q → 0 ≤ p → Z.of_nat (length buf) = cap →
  cap ≤ counter_max dt →
  fill_slice dt cap p buf (rs ++ rest)
  = fill_slice dt cap q
      (take (Z.to_nat p) buf ++ expand rs ++ drop (Z.to_nat q) buf) rest.
Proof.
  induction rs as [|[mult num] rs IH]; intros p buf q rest Hw Hp Hlen Hmax.
  - injection Hw as <-. cbn [expand flat_map app]. by rewrite take_drop.
  - pose proof (written_le _ _ _ _ Hw) as Hle.
    cbn [written] in Hw. pose proof (byte_val_range mult).
    destruct (_ && _) eqn:E; [|done].
    apply andb_true_iff in E as [E1 E2].
    pose proof (written_le _ _ _ _ Hw) as Hle'.
    pose proof (written_expand _ _ _ _ Hw) as Hq.
    cbn [app fill_slice]. rewrite E1.
    rewrite counter_add_exact by lia.
    rewrite assign_repeat_fits by lia. cbn [rbind].
    rewrite (IH _ _ q rest Hw); [|lia| |done].
    2:{ rewrite !length_app, length_replicate, length_take, length_drop. lia. }
    f_equal. cbn [expand flat_map]. fold (expand rs).
    set (T := take (Z.to_nat p) buf).
    set (R := replicate (Z.to_nat (byte_val mult)) (byte_val num)).
    assert (length (T ++ R) = Z.to_nat (p + byte_val mult)) as HTR.
    { unfold T, R. rewrite length_app, length_replicate, length_take. lia. }
    rewrite (app_assoc T R), take_app_length' by done.
    rewrite drop_app_ge by lia. rewrite drop_drop.
    replace (Z.to_nat (p + byte_val mult) + (Z.to_nat q - length (T ++ R)))%nat
      with (Z.to_nat q) by lia.
    by rewrite <- !app_assoc.
Qed.

Lemma fill_slice_done dt cap p buf rle :
  cap ≤ p → fill_slice dt cap p buf rle = Return (buf, rle).
Proof.
  intros H. destruct rle as [|[??]?]; cbn;
    by destruct (p <? cap) eqn:E; [lia|].
Qed.

(** A run longer than the cells left in the slice stops the decoder. *)
Lemma fill_slice_overflow dt cap p buf mult num rle :
  Z.of_nat (length buf) = cap → 0 ≤ p < cap → cap - p < byte_val mult →
  fill_slice dt cap p buf ((mult, num) :: rle) = Raise ValueError_broadcast.
Proof.
  intros Hlen Hp Hover. cbn [fill_slice].
  destruct (p <? cap) eqn:E; [|lia].
  rewrite assign_repeat_overflow by lia. done.
Qed.

(** A slice with more cells than the dtype of the counter can count is
    never filled: the counter stays below the capacity, and the loop
    goes on until an assignment is refused or the rows run out. *)
Lemma fill_slice_never dt cap rle : ∀ p buf,
  counter_max dt < cap → p ≤ counter_max dt →
  ∃ e, fill_slice dt cap p buf rle = Raise e.
Proof.
  induction rle as [|[mult num] rle IH]; intros p buf Hcap Hp.
  - exists IndexError_ndarray. cbn [fill_slice].
    by destruct (p <? cap) eqn:E; [|lia].
  - cbn [fill_slice]. destruct (p <? cap) eqn:E; [|lia].
    destruct (assign_repeat _ _ _ _ _) as [buf1|e]; [|by exists e].
    cbn [rbind]. apply IH; [done|apply counter_add_max].
Qed.

(** A slice that was filled was filled exactly, by the rows taken. *)
Lemma fill_slice_Return dt cap rle : ∀ p buf buf' rle',
  cap ≤ counter_max dt →
  Z.of_nat (length buf) = cap → 0 ≤ p ≤ cap →
  fill_slice dt cap p buf rle = Return (buf', rle') →
  ∃ rs, rle = rs ++ rle' ∧ written cap p rs = Some cap.
Proof.
  induction rle as [|[mult num] rle IH]; intros p buf buf' rle' Hmax Hlen Hp.
  - cbn [fill_slice]. destruct (p <? cap) eqn:E; [done|].
    intros [= <- <-]. exists []. split; [done|]. cbn. f_equal. lia.
  - cbn [fill_slice]. destruct (p <? cap) eqn:E.
    + pose proof (byte_val_range mult).
      destruct (Z_le_gt_dec (p + byte_val mult) cap) as [Hfit|Hover].
      * rewrite counter_add_exact by lia.
        rewrite assign_repeat_fits by lia. cbn [rbind]. intros Hf.
        apply IH in Hf as (rs & -> & Hw); [|done| |lia].
        -- exists ((mult, num) :: rs). split; [done|].
           cbn [written]. rewrite E.
           by destruct (p + byte_val mult <=? cap) eqn:E2; [|lia].
        -- rewrite !length_app, length_replicate, length_take, length_drop.
           lia.
      * rewrite assign_repeat_overflow by lia. done.
    + intros [= <- <-]. exists []. split; [done|]. cbn. f_equal. lia.
Qed.

(** ** Allocation *)

Lemma zeros1_Return n buf :
  zeros1 n = Return buf →
  array_too_big [n] = false ∧ buf = replicate (Z.to_nat n) 0.
Proof.
  unfold zeros1. destruct (array_too_big [n]); [done|]. by intros [= <-].
Qed.

Lemma zeros3_Return h w d vol :
  zeros3 h w d = Return vol →
  array_too_big [h; w; d] = false ∧ vol = blank3 h w d.
Proof.
  unfold zeros3. destruct (array_too_big [h; w; d]); [done|].
  by intros [= <-].
Qed.

(** When the volume can be allocated and has a slice, the buffer of a
    slice can be allocated. *)
Lemma array_fits_slice h w d :
  0 ≤ h → 0 ≤ w → 0 < d →
  array_too_big [h; w; d] = false → array_too_big [w * h] = false.
Proof.
  unfold array_too_big. cbn [fold_right]. intros Hh Hw Hd H.
  apply Z.ltb_ge in H. apply Z.ltb_ge.
  destruct (h =? 0) eqn:Eh; destruct (w =? 0) eqn:Ew;
    destruct (d =? 0) eqn:Ed; destruct (w * h =? 0) eqn:Ewh; bool_lia || nia.
Qed.

Lemma length_blank1 n : 0 ≤ n → Z.of_nat (length (replicate (Z.to_nat n) 0)) = n.
Proof. intros H. rewrite length_replicate. lia. Qed.

(** ** Slices and volumes *)

(** Slices that are filled exactly are passed one after the other, and
    their cells are placed in the volume. *)
Lemma fill_volume_slices dt w h slices : ∀ todo k vol rest,
  0 ≤ w * h → w * h ≤ counter_max dt → array_too_big [w * h] = false →
  Forall (λ rs, written (w * h) 0 rs = Some (w * h)) slices →
  fill_volume dt w h (length slices + todo) k vol (concat slices ++ rest)
  = fill_volume dt w h todo (k + Z.of_nat (length slices))
      (place_slices vol k (expand <$> slices)) rest.
Proof.
  induction slices as [|rs slices IH];
    intros todo k vol rest Hcap Hmax Hbig Hall.
  - cbn [length concat app Nat.add fmap list_fmap place_slices]. f_equal. lia.
  - apply Forall_cons in Hall as [Hrs Hall].
    cbn [length concat Nat.add fill_volume]. rewrite <- app_assoc.
    unfold zeros1. rewrite Hbig. cbn [rbind].
    rewrite (fill_slice_written dt _ rs 0 _ (w * h)
               (concat slices ++ rest) Hrs);
      [|lia|by apply length_blank1|done].
    rewrite fill_slice_done by lia. cbn [rbind].
    rewrite (IH todo (k + 1) _ rest Hcap Hmax Hbig Hall).
    cbn [fmap list_fmap place_slices]. rewrite drop_ge, app_nil_r.
    2:{ pose proof (length_blank1 (w * h)). lia. }
    cbn [Z.to_nat take app]. f_equal. lia.
Qed.

(** A volume that was filled was filled by slices that the rows fill
    exactly, one after the other; when it has a slice, the buffer of a
    slice was allocated and the dtype of the counter holds its
    capacity. *)
Lemma fill_volume_Return dt w h todo : ∀ k vol rle vol' rle',
  0 ≤ w * h →
  fill_volume dt w h todo k vol rle = Return (vol', rle') →
  (∃ slices, rle = concat slices ++ rle' ∧ length slices = todo
    ∧ Forall (λ rs, written (w * h) 0 rs = Some (w * h)) slices
    ∧ vol' = place_slices vol k (expand <$> slices))
  ∧ ((0 < todo)%nat →
     w * h ≤ counter_max dt ∧ array_too_big [w * h] = false).
Proof.
  induction todo as [|todo IH]; intros k vol rle vol' rle' Hcap.
  - intros [= <- <-]. split; [by exists []|lia].
  - cbn [fill_volume].
    destruct (zeros1 (w * h)) as [buf0|e] eqn:Hz; [|done].
    apply zeros1_Return in Hz as [Hbig ->]. cbn [rbind].
    destruct (fill_slice _ _ _ _ rle) as [[sl rle1]|e] eqn:Hs; [|done].
    cbn [rbind]. intros Hv.
    assert (w * h ≤ counter_max dt) as Hmax.
    { destruct (Z_le_gt_dec (w * h) (counter_max dt)) as [Hle|Hgt]; [done|].
      destruct (fill_slice_never dt (w * h) rle 0 (replicate (Z.to_nat (w * h)) 0))
        as [e He]; [lia|pose proof (counter_max_255 dt); lia|].
      by rewrite He in Hs. }
    split; [|done].
    pose proof Hs as Hs'.
    apply fill_slice_Return in Hs' as (rs & -> & Hw);
      [|done|by apply length_blank1|lia].
    rewrite (fill_slice_written dt _ rs 0 _ _ rle1 Hw) in Hs;
      [|lia|by apply length_blank1|done].
    rewrite fill_slice_done in Hs by lia. injection Hs as <-.
    rewrite drop_ge, app_nil_r in Hv
      by (pose proof (length_blank1 (w * h)); lia).
    cbn [Z.to_nat take app] in Hv.
    apply IH in Hv as [(slices & -> & Hlen & Hall & ->) _]; [|done].
    exists (rs :: slices). cbn [concat length fmap list_fmap place_slices].
    rewrite <- app_assoc. split; [done|]. split; [lia|].
    split; [by constructor|done].
Qed.

Lemma place_slices_shape sls : ∀ vol k,
  shape (place_slices vol k sls) = shape vol
  ∧ length (cells (place_slices vol k sls)) = length (cells vol).
Proof.
  induction sls as [|sl sls IH]; intros vol k; [done|].
  cbn [place_slices]. destruct (IH (assign_depth_slice vol k sl) (k + 1))
    as [-> ->]. cbn. by rewrite length_imap.
Qed.

(** The volumes that a call appends, each of the shape of the header. *)
Lemma fill_volumes_Return dt w h d n : ∀ vols rle vols',
  0 ≤ w * h →
  fill_volumes dt w h d n vols rle = Return vols' →
  ∃ new, vols' = vols ++ new ∧ length new = n
    ∧ Forall (λ v, shape v = (h, w, d)) new.
Proof.
  induction n as [|n IH]; intros vols rle vols' Hcap.
  - intros [= <-]. exists []. by rewrite app_nil_r.
  - cbn [fill_volumes].
    destruct (zeros3 h w d) as [vol0|e] eqn:Hz; [|done].
    apply zeros3_Return in Hz as [_ ->]. cbn [rbind].
    destruct (fill_volume _ _ _ _ _ _ _) as [[v rle1]|e] eqn:Hf; [|done].
    cbn [rbind]. intros H. apply IH in H as (new & -> & Hlen & Hall); [|done].
    apply fill_volume_Return in Hf as [(slices & _ & _ & _ & ->) _]; [|done].
    exists (place_slices (blank3 h w d) 0 (expand <$> slices) :: new).
    rewrite <- app_assoc. split; [done|]. split; [cbn; lia|].
    constructor; [|done]. by rewrite (proj1 (place_slices_shape _ _ _)).
Qed.

(** ** What a successful call has done *)

(** The shape of a successful decode: the tables are read, the rest of
    the file splits into rows, the volume is allocated, and its slices
    are filled exactly by the first rows. *)
Lemma decode_Return dt s m :
  decode dt s = Return m →
  ∃ t rest slices more,
    read_tables AnalyzeSpatialMap_init s = Return (t, rest)
    ∧ reshape_pairs rest = Return (concat slices ++ more)
    ∧ length slices = Z.to_nat (depth t)
    ∧ Forall (λ rs, written (width t * height t) 0 rs
                    = Some (width t * height t)) slices
    ∧ array_too_big [height t; width t; depth t] = false
    ∧ (0 < depth t → width t * height t ≤ counter_max dt)
    ∧ version_code m = version_code t ∧ version m = version t
    ∧ width m = width t ∧ height m = height t ∧ depth m = depth t
    ∧ n_objects m = n_objects t ∧ objects m = objects t
    ∧ n_vols m = 1
    ∧ vols m = [place_slices (blank3 (height t) (width t) (depth t)) 0
                  (expand <$> slices)].
Proof.
  unfold decode. rewrite from_file_stages. unfold io_bind.
  destruct (read_tables _ s) as [[t rest]|e] eqn:Ht; [|done].
  destruct (read_tables_keeps _ _ _ _ Ht) as (Hn & Hv & _).
  destruct (read_tables_nonneg _ _ _ _ Ht) as (Hw0 & Hh0 & Hd0).
  cbn in Hn, Hv. unfold read_volumes, io_bind, read_all, io_lift.
  destruct (reshape_pairs rest) as [rle|e] eqn:Hr; [|done].
  cbn [rbind]. rewrite Hn, Hv. change (Z.to_nat 1) with 1%nat.
  cbn [fill_volumes app].
  destruct (zeros3 _ _ _) as [vol0|e] eqn:Hz; [|done].
  apply zeros3_Return in Hz as [Hbig ->]. cbn [rbind].
  destruct (fill_volume _ _ _ _ _ _ _) as [[v rle']|e] eqn:Hf; [|done].
  cbn. intros [= <-].
  apply fill_volume_Return in Hf
    as [(slices & -> & Hlen & Hall & ->) Hfit]; [|nia].
  exists t, rest, slices, rle'. cbn.
  repeat split; try done. intros Hd. apply Hfit. lia.
Qed.

(** The volume count of a decoded map is 1 whatever the file says, and
    the map holds one volume. *)
Lemma decode_one_volume dt s m :
  decode dt s = Return m → n_vols m = 1 ∧ length (vols m) = 1%nat.
Proof.
  intros H. apply decode_Return in H
    as (t & rest & slices & more & _ & _ & _ & _ & _ & _ & _ & _ & _ & _ & _
        & _ & _ & Hn & Hv).
  by rewrite Hn, Hv.
Qed.

(** The map decoded from rows that start with the slices of the
    volume, each filled exactly, when the volume can be allocated and
    the dtype of the counter holds the capacity of a slice. *)
Lemma decode_slices dt s t rest slices more :
  read_tables AnalyzeSpatialMap_init s = Return (t, rest) →
  reshape_pairs rest = Return (concat slices ++ more) →
  length slices = Z.to_nat (depth t) →
  Forall (λ rs, written (width t * height t) 0 rs = Some (width t * height t))
         slices →
  array_too_big [height t; width t; depth t] = false →
  (0 < depth t → width t * height t ≤ counter_max dt) →
  decode dt s
  = Return {| version_code := version_code t; version := version t;
              width := width t; height := height t; depth := depth t;
              n_objects := n_objects t; n_vols := 1; objects := objects t;
              vols := [place_slices (blank3 (height t) (width t) (depth t)) 0
                         (expand <$> slices)] |}.
Proof.
  intros Ht Hr Hlen Hall Hbig Hfit.
  destruct (read_tables_keeps _ _ _ _ Ht) as (Hn & Hv & _). cbn in Hn, Hv.
  destruct (read_tables_nonneg _ _ _ _ Ht) as (Hw0 & Hh0 & Hd0).
  unfold decode. rewrite from_file_stages. unfold io_bind. rewrite Ht.
  unfold read_volumes, io_bind, read_all, io_lift. rewrite Hr, Hn, Hv.
  cbn [rbind]. change (Z.to_nat 1) with 1%nat. cbn [fill_volumes].
  unfold zeros3. rewrite Hbig. cbn [rbind].
  destruct (decide (depth t = 0)) as [Hd|Hd].
  - rewrite Hd in *. destruct slices; [|done]. by cbn.
  - replace (Z.to_nat (depth t)) with (length slices + 0)%nat by lia.
    rewrite fill_volume_slices;
      [by cbn|nia|apply Hfit; lia| |done].
    apply (array_fits_slice (height t) (width t) (depth t)); [done|done|lia|done].
Qed.

(** ** Version 7 headers (C1) *)

(** C1, as the code has it: on a file of version code 20050829 whose
    fifth header integer is 2, [from_file] sets the version to 7 and
    reads the five integers, but leaves [n_vols] at 1 and decodes one
    volume; the second volume of the file is not read. *)
Theorem C1_version7_volume_count_not_read dt :
  ∃ m v, decode dt two_volume_file = Return m
    ∧ version_code m = 20050829 ∧ version m = 7
    ∧ n_vols m = 1 ∧ vols m = [v].
Proof.
  eexists _, _. split; [destruct dt; vm_compute; reflexivity|]. by cbn.
Qed.

(** ** The example file of two by two cells (C5) *)

Lemma decode_example_file dt : decode dt example_file = Return example_map.
Proof. destruct dt; vm_compute; reflexivity. Qed.

(** C5: the file with version code 1, width 2, height 2, depth 1, no
    object and the two bytes 4, 7 decodes to one volume of shape
    (2, 2, 1) whose four cells are 7. *)
Theorem C5_example_decodes_to_sevens dt :
  ∃ m, decode dt example_file = Return m
    ∧ n_vols m = 1
    ∧ vols m = [{| shape := (2, 2, 1); cells := [7; 7; 7; 7] |}]
    ∧ fst (get_data m 0) = Return {| shape := (2, 2, 1); cells := [7; 7; 7; 7] |}.
Proof.
  eexists. split; [destruct dt; vm_compute; reflexivity|]. by cbn.
Qed.

(** ** [get_data] (C7, C10) *)

Lemma list_getitem_ge {A} (l : list A) idx :
  Z.of_nat (length l) ≤ idx → list_getitem l idx = Raise IndexError_list.
Proof.
  intros H. unfold list_getitem.
  destruct (idx <? 0) eqn:Hneg; [lia|]. rewrite Hneg.
  rewrite (proj2 (lookup_ge_None l (Z.to_nat idx))); [done|lia].
Qed.

Lemma list_getitem_negative {A} (l : list A) k :
  1 ≤ k ≤ Z.of_nat (length l) →
  ∃ x, l !! (length l - Z.to_nat k)%nat = Some x
       ∧ list_getitem l (- k) = Return x.
Proof.
  intros H. unfold list_getitem.
  destruct (- k <? 0) eqn:Hneg; [|lia].
  destruct (- k + Z.of_nat (length l) <? 0) eqn:Hj; [lia|].
  replace (Z.to_nat (- k + Z.of_nat (length l)))
    with (length l - Z.to_nat k)%nat by lia.
  destruct (lookup_lt_is_Some_2 l (length l - Z.to_nat k)%nat) as [x Hx]; [lia|].
  exists x. by rewrite Hx.
Qed.

(** C7: on a decoded map, [get_data] with an index at or above the
    volume count raises IndexError (the kind IndexOutOfRangeError), and
    the map after the call is the map before it. *)
Theorem C7_get_data_out_of_range dt s m idx :
  decode dt s = Return m →
  n_vols m ≤ idx →
  fails_with (fst (get_data m idx)) IndexOutOfRangeError
  ∧ snd (get_data m idx) = m.
Proof.
  intros Hd Hidx. destruct (decode_one_volume _ _ _ Hd) as [Hn Hl].
  split; [|done]. exists IndexError_list. split; [|done].
  cbn. apply list_getitem_ge. lia.
Qed.

Lemma C7_get_data_out_of_range_witness :
  fails_with (fst (get_data example_map 1)) IndexOutOfRangeError
  ∧ snd (get_data example_map 1) = example_map.
Proof.
  apply (C7_get_data_out_of_range np_uint8 example_file example_map 1).
  - vm_compute; reflexivity.
  - cbn; lia.
Defined.



(** ** The rest of the file as rows of two bytes (C4) *)

Lemma reshape_pairs_odd bs :
  Nat.odd (length bs) = true → reshape_pairs bs = Raise ValueError_reshape.
Proof.
  induction bs as [bs IH] using (induction_ltof1 _ (@length byte)).
  unfold ltof in IH. destruct bs as [|m [|v bs']]; [done|done|].
  intros Hodd.
  change (reshape_pairs (m :: v :: bs'))
    with (rbind (reshape_pairs bs') (λ rs, Return ((m, v) :: rs))).
  rewrite IH; [done|cbn; lia|]. by rewrite <- Hodd.
Qed.

Lemma reshape_pairs_even bs :
  Nat.even (length bs) = true →
  ∃ rs, reshape_pairs bs = Return rs ∧ length bs = (2 * length rs)%nat.
Proof.
  induction bs as [bs IH] using (induction_ltof1 _ (@length byte)).
  unfold ltof in IH. destruct bs as [|m [|v bs']]; [by exists []|done|].
  intros Heven.
  change (reshape_pairs (m :: v :: bs'))
    with (rbind (reshape_pairs bs') (λ rs, Return ((m, v) :: rs))).
  destruct (IH bs') as (rs & -> & Hlen); [cbn; lia|done|].
  exists ((m, v) :: rs). split; [done|]. cbn. lia.
Qed.

(** C4: when the bytes that remain after the object table are odd in
    number, decoding raises the ValueError of [reshape] (the kind
    MalformedRLEStreamError). *)
Theorem C4_odd_remainder_fails dt s t rest :
  read_tables AnalyzeSpatialMap_init s = Return (t, rest) →
  Nat.odd (length rest) = true →
  fails_with (decode dt s) MalformedRLEStreamError.
Proof.
  intros Ht Hodd. exists ValueError_reshape. split; [|done].
  unfold decode. rewrite from_file_stages. unfold io_bind. rewrite Ht.
  unfold read_volumes, io_bind, read_all, io_lift.
  by rewrite (reshape_pairs_odd _ Hodd).
Qed.

Lemma C4_odd_remainder_fails_witness :
  fails_with (decode np_uint8 odd_file) MalformedRLEStreamError.
Proof.
  apply (C4_odd_remainder_fails np_uint8 odd_file
           {| version_code := 1; version := 6; width := 2; height := 2;
              depth := 1; n_objects := 0; n_vols := 1; objects := [];
              vols := [] |}
           (bytes [4; 7; 1])).
  - vm_compute; reflexivity.
  - reflexivity.
Defined.

(** ** A run that is too long (C3) *)




(** ** Object records (C2, C9) *)

(** A record takes 152 bytes; its two float fields start at the bytes
    140 and 148.  A call that returns has read them all, and both float
    fields hold the tuple that [struct.unpack] returned. *)
Lemma read_object_Return s o s' :
  read_object s = Return (o, s') →
  (152 ≤ length s)%nat ∧ s' = drop 152 s
  ∧ opacity o = PyTuple [PyFloat (take 4 (drop 140 s))]
  ∧ blendfactor o = PyTuple [PyFloat (take 4 (drop 148 s))].
Proof.
  unfold_reads. destruct (_read_nts (take 32 s)) as [nm|e]; [|done].
  case_unpack E1; [|done]. case_unpack E2; [|done].
  intros [= <- <-]. cbn [opacity blendfactor]. rewrite ?drop_drop.
  cbn [Nat.add]. split; [lia|done].
Qed.

(** A record cut short raises: [struct.error] at one of its float
    fields, unless its name is ill-formed. *)
Lemma read_object_short s :
  (length s < 152)%nat →
  read_object s = Raise struct_error ∨ read_object s = Raise UnicodeDecodeError.
Proof.
  intros Hlen. unfold_reads.
  destruct (_read_nts (take 32 s)) as [nm|e] eqn:Hn.
  - left. case_unpack E1; [|done]. case_unpack E2; [lia|done].
  - right. unfold _read_nts in Hn. destruct (utf8_decode _); [done|].
    by injection Hn as <-.
Qed.

Lemma read_object_Raise s e :
  read_object s = Raise e → e = struct_error ∨ e = UnicodeDecodeError.
Proof.
  unfold_reads. destruct (_read_nts (take 32 s)) as [nm|e'] eqn:Hn.
  - case_unpack E1; [|intros [= <-]; by left].
    case_unpack E2; [done|intros [= <-]; by left].
  - unfold _read_nts in Hn. destruct (utf8_decode _); [done|].
    injection Hn as <-. intros [= <-]. by right.
Qed.

(** The object table: a table cut short raises. *)
Lemma read_objects_short n : ∀ objs s,
  (length s < 152 * n)%nat →
  ∃ e, read_objects n objs s = Raise e
       ∧ (e = struct_error ∨ e = UnicodeDecodeError).
Proof.
  induction n as [|n IH]; intros objs s Hlen; [lia|].
  cbn [read_objects]. unfold io_bind.
  destruct (read_object s) as [[o s']|e] eqn:Ho.
  - apply read_object_Return in Ho as (Hl & -> & _).
    apply IH. rewrite length_drop. lia.
  - exists e. split; [done|]. by apply read_object_Raise in Ho.
Qed.

(** Every object of a table that was read holds tuples in its two
    float fields. *)
Lemma read_objects_Return n : ∀ objs s objs' s',
  read_objects n objs s = Return (objs', s') →
  ∃ new, objs' = objs ++ new ∧ length new = n
    ∧ Forall (λ o, ∃ raw1 raw2, length raw1 = 4%nat ∧ length raw2 = 4%nat
                ∧ opacity o = PyTuple [PyFloat raw1]
                ∧ blendfactor o = PyTuple [PyFloat raw2]) new.
Proof.
  induction n as [|n IH]; intros objs s objs' s'.
  - intros [= <- <-]. exists []. by rewrite app_nil_r.
  - cbn [read_objects]. unfold io_bind.
    destruct (read_object s) as [[o s1]|e] eqn:Ho; [|done].
    intros H. apply IH in H as (new & -> & Hlen & Hall).
    apply read_object_Return in Ho as (Hl & -> & Hop & Hbl).
    exists (o :: new). rewrite <- app_assoc. split; [done|].
    split; [cbn; lia|]. constructor; [|done].
    exists (take 4 (drop 140 s)), (take 4 (drop 148 s)).
    rewrite !length_take, !length_drop. repeat split; [lia|lia|done|done].
Qed.

(** The header is read whatever the file holds: a field of which bytes
    are missing is the number that the bytes left denote, 0 when there
    are none. *)
Lemma read_head_total s :
  ∃ vc header rest, read_head s = Return ((vc, header), rest)
    ∧ vc = int_from_bytes (take 4 s)
    ∧ length header = (if vc <? 20050829 then 4%nat else 5%nat)
    ∧ rest = drop (4 + 4 * length header) s.
Proof.
  unfold read_head, io_bind. rewrite read_int_eq.
  destruct (read_header_eq (if int_from_bytes (take 4 s) <? 20050829
                            then 4%nat else 5%nat) [] (drop 4 s))
    as (vs & Hlen & ->).
  exists (int_from_bytes (take 4 s)), vs, (drop (4 * length vs) (drop 4 s)).
  rewrite Hlen. cbn [app io_ret]. by rewrite drop_drop.
Qed.

Lemma read_tables_objects self s vc header rest :
  read_head s = Return ((vc, header), rest) →
  read_tables self s
  = rbind (read_objects (Z.to_nat (nth 3 header 0)) (objects self) rest)
      (λ '(objects_, s'),
         Return ({| version_code := vc;
                    version := if vc <? 20050829 then 6 else 7;
                    width := nth 0 header 0; height := nth 1 header 0;
                    depth := nth 2 header 0; n_objects := nth 3 header 0;
                    n_vols := if (if vc <? 20050829 then 6 else 7) >? 7
                              then nth 4 header 0 else n_vols self;
                    objects := objects_; vols := vols self |}, s')).
Proof.
  unfold read_head, read_tables, io_bind. rewrite read_int_eq.
  destruct (read_header _ [] _) as [[hd s1]|e]; [|done].
  cbn [io_ret]. intros [= <- <- <-].
  by destruct (read_objects _ _ s1) as [[objs s2]|e].
Qed.

(** C2 fails as stated: [short_header_file] ends before its header is
    complete (it holds 12 of the 20 bytes), and decoding it returns a
    map, with depth 0, no object and one empty volume. *)
Lemma C2_short_header_is_decoded :
  (length short_header_file < 4 + 4 * 4)%nat
  ∧ ∀ dt,
      decode dt short_header_file
      = Return {| version_code := 1; version := 6; width := 2; height := 2;
                  depth := 0; n_objects := 0; n_vols := 1; objects := [];
                  vols := [{| shape := (2, 2, 0); cells := [] |}] |}
      ∧ ¬ fails_with (decode dt short_header_file) TruncatedInputError.
Proof.
  split; [cbn; lia|]. intros dt.
  assert (decode dt short_header_file
    = Return {| version_code := 1; version := 6; width := 2; height := 2;
                depth := 0; n_objects := 0; n_vols := 1; objects := [];
                vols := [{| shape := (2, 2, 0); cells := [] |}] |}) as H
    by (destruct dt; vm_compute; reflexivity).
  split; [done|]. rewrite H. by intros (e & He & _).
Qed.

(** A record whose name is well-formed: it is read when its 152 bytes
    are there, and raises [struct.error] when they are not. *)
Lemma read_object_named s nm :
  _read_nts (take 32 s) = Return nm →
  ((152 ≤ length s)%nat → ∃ o, read_object s = Return (o, drop 152 s))
  ∧ ((length s < 152)%nat → read_object s = Raise struct_error).
Proof.
  intros Hn. split; intros Hlen; unfold_reads; rewrite Hn.
  - case_unpack E1; [|lia]. case_unpack E2; [|lia].
    eexists. by rewrite ?drop_drop.
  - case_unpack E1; [|done]. case_unpack E2; [lia|done].
Qed.

Lemma read_object_name_error s e :
  _read_nts (take 32 s) = Raise e → read_object s = Raise e.
Proof. intros H. unfold_reads. by rewrite H. Qed.

Lemma _read_nts_Raise bytecode e :
  _read_nts bytecode = Raise e → e = UnicodeDecodeError.
Proof.
  unfold _read_nts. destruct (utf8_decode _); [done|]. by intros [= <-].
Qed.

(** A table of which [j] records are complete and the next one, which
    the header declares, is not: [struct.error] when the names of
    these records are well-formed, UnicodeDecodeError when one is
    not. *)
Lemma read_objects_cut n : ∀ objs s j,
  (152 * j ≤ length s < 152 * S j)%nat → (j < n)%nat →
  ((∀ i, (i ≤ j)%nat →
      ∃ nm, _read_nts (take 32 (drop (152 * i) s)) = Return nm) →
   read_objects n objs s = Raise struct_error)
  ∧ ((∃ i, (i ≤ j)%nat
           ∧ _read_nts (take 32 (drop (152 * i) s)) = Raise UnicodeDecodeError) →
     read_objects n objs s = Raise UnicodeDecodeError).
Proof.
  induction n as [|n IH]; intros objs s j Hlen Hj; [lia|].
  cbn [read_objects]. unfold io_bind.
  destruct (_read_nts (take 32 s)) as [nm|e] eqn:Hn.
  2:{ pose proof (_read_nts_Raise _ _ Hn) as ->.
      rewrite (read_object_name_error _ _ Hn). split; [|done].
      intros Hall. destruct (Hall 0%nat) as [nm Hnm]; [lia|].
      rewrite Nat.mul_0_r, drop_0 in Hnm. by rewrite Hn in Hnm. }
  destruct (read_object_named _ _ Hn) as [Hfull Hshort].
  destruct j as [|j].
  - rewrite Hshort by lia. split; [done|].
    intros (i & Hi & Hbad). assert (i = 0%nat) as -> by lia.
    rewrite Nat.mul_0_r, drop_0 in Hbad. by rewrite Hn in Hbad.
  - destruct Hfull as [o ->]; [lia|].
    destruct (IH (objs ++ [o]) (drop 152 s) j) as [IH1 IH2];
      [rewrite length_drop; lia|lia|].
    split.
    + intros Hall. apply IH1. intros i Hi.
      destruct (Hall (S i)) as [nm' Hnm]; [lia|]. exists nm'.
      rewrite drop_drop. by replace (152 + 152 * i)%nat with (152 * S i)%nat by lia.
    + intros (i & Hi & Hbad). apply IH2.
      destruct i as [|i];
        [rewrite Nat.mul_0_r, drop_0 in Hbad; by rewrite Hn in Hbad|].
      exists i. split; [lia|]. rewrite drop_drop.
      by replace (152 + 152 * i)%nat with (152 * S i)%nat by lia.
Qed.

(** C2, amended: take a file of which the bytes that follow the header
    hold [j] object records of 152 bytes in full and not the next one,
    which the header declares.  Decoding raises and returns no map:
    [struct.error] (the kind TruncatedInputError, raised at the opacity
    or blend factor of the incomplete record) when the name slots of
    these [j + 1] records are well-formed, and UnicodeDecodeError (the
    kind InvalidEncodingError) when one of them is not. *)
Theorem C2_short_object_table_fails dt s vc header rest j :
  read_head s = Return ((vc, header), rest) →
  (152 * j ≤ length rest < 152 * S j)%nat →
  (j < Z.to_nat (nth 3 header 0%Z))%nat →
  ((∀ i, (i ≤ j)%nat →
      ∃ nm, _read_nts (take 32 (drop (152 * i) rest)) = Return nm) →
   fails_with (decode dt s) TruncatedInputError)
  ∧ ((∃ i, (i ≤ j)%nat
           ∧ _read_nts (take 32 (drop (152 * i) rest))
             = Raise UnicodeDecodeError) →
     fails_with (decode dt s) InvalidEncodingError).
Proof.
  intros Hh Hlen Hj.
  destruct (read_objects_cut _ (objects AnalyzeSpatialMap_init) _ _ Hlen Hj)
    as [H1 H2].
  assert (∀ e, read_objects (Z.to_nat (nth 3 header 0))
                 (objects AnalyzeSpatialMap_init) rest = Raise e →
               decode dt s = Raise e) as Hd.
  { intros e He. unfold decode. rewrite from_file_stages. unfold io_bind.
    by rewrite (read_tables_objects _ _ _ _ _ Hh), He. }
  split; intros H.
  - exists struct_error. split; [|done]. by apply Hd, H1.
  - exists UnicodeDecodeError. split; [|done]. by apply Hd, H2.
Qed.

Lemma C2_short_object_table_fails_witness :
  fails_with (decode np_uint8 short_object_file) TruncatedInputError.
Proof.
  apply (C2_short_object_table_fails np_uint8 short_object_file 1 [2; 2; 1; 1]
           (bytes (replicate 100 0)) 0).
  - vm_compute; reflexivity.
  - vm_compute; lia.
  - vm_compute; lia.
  - intros i Hi. assert (i = 0%nat) as -> by lia.
    eexists. vm_compute. reflexivity.
Defined.

(** ** The float fields of an object (C9) *)

(** Every object of a decoded map holds, in [opacity] and in
    [blendfactor], a tuple of one float. *)
Lemma decode_float_fields dt s m o :
  decode dt s = Return m → o ∈ objects m →
  ∃ raw1 raw2, length raw1 = 4%nat ∧ length raw2 = 4%nat
    ∧ opacity o = PyTuple [PyFloat raw1]
    ∧ blendfactor o = PyTuple [PyFloat raw2].
Proof.
  intros Hd Ho. apply decode_Return in Hd
    as (t & rest & slices & more & Ht & _ & _ & _ & _ & _ & _ & _ & _ & _ & _
        & _ & Hobjs & _).
  rewrite Hobjs in Ho.
  destruct (read_head_total s) as (vc & header & rest' & Hh & _).
  rewrite (read_tables_objects _ _ _ _ _ Hh) in Ht.
  destruct (read_objects _ _ rest') as [[objs s2]|e] eqn:Hr; [|done].
  injection Ht as <- <-. cbn in Ho.
  apply read_objects_Return in Hr as (new & -> & _ & Hall).
  cbn in Ho. by apply (proj1 (Forall_forall _ _) Hall).
Qed.

(** C9, as the code has it: the object decoded from [one_object_file]
    holds in [opacity] and [blendfactor] the tuples returned by
    [struct.unpack], of one float each, not floats. *)
Theorem C9_float_fields_hold_tuples dt :
  ∃ m o, decode dt one_object_file = Return m ∧ objects m = [o]
    ∧ opacity o = PyTuple [PyFloat (bytes [0; 0; 128; 63])]
    ∧ blendfactor o = PyTuple [PyFloat (bytes [0; 0; 0; 63])]
    ∧ (∀ raw, opacity o ≠ PyFloat raw)
    ∧ (∀ raw, blendfactor o ≠ PyFloat raw).
Proof.
  eexists _, _. split; [destruct dt; vm_compute; reflexivity|].
  split; [reflexivity|]. cbn. repeat split; done.
Qed.

(** ** What a filled volume holds (C6) *)

(** The cell at position [idx] after the slices are placed: the cell of
    the slice of depth [idx mod d], at position [idx / d], when that
    depth is one of those assigned. *)
Lemma place_slices_lookup sls : ∀ vol k idx old,
  0 ≤ k → cells vol !! idx = Some old →
  cells (place_slices vol k sls) !! idx
  = Some (let j := Z.of_nat idx `mod` (shape vol).2 in
          if (k <=? j) && (j <? k + Z.of_nat (length sls))
          then default old (sls !! Z.to_nat (j - k)
                              ≫= λ sl, sl !! (idx `div` Z.to_nat (shape vol).2)%nat)
          else old).
Proof.
  induction sls as [|sl sls IH]; intros vol k idx old Hk Hold.
  - cbn [place_slices length]. rewrite Hold. cbn zeta.
    by destruct (_ && _) eqn:E; [bool_lia|].
  - cbn [place_slices]. cbn zeta.
    set (d := (shape vol).2). set (j := Z.of_nat idx `mod` d).
    erewrite IH; [|lia|].
    2:{ cbn [cells assign_depth_slice]. rewrite list_lookup_imap, Hold.
        cbn [fmap option_fmap option_map]. reflexivity. }
    cbn zeta. cbn [shape assign_depth_slice]. fold d j.
    f_equal. cbn [length]. destruct (j =? k) eqn:Ejk.
    + apply Z.eqb_eq in Ejk. rewrite Ejk.
      replace (Z.to_nat (k - k)) with 0%nat by lia. cbn [lookup list_lookup].
      destruct ((k + 1 <=? k) && _) eqn:E1; [bool_lia|].
      destruct ((k <=? k) && _) eqn:E2; [|bool_lia].
      cbn [mbind option_bind]. done.
    + apply Z.eqb_neq in Ejk.
      destruct ((k + 1 <=? j) && _) eqn:E1.
      * destruct ((k <=? j) && _) eqn:E2; [|bool_lia].
        replace (Z.to_nat (j - k)) with (S (Z.to_nat (j - (k + 1))))
          by bool_lia.
        done.
      * by destruct ((k <=? j) && _) eqn:E2; [bool_lia|].
Qed.

Lemma expand_elem x rs :
  x ∈ expand rs → ∃ mult num, (mult, num) ∈ rs ∧ x = byte_val num.
Proof.
  unfold expand. rewrite list_elem_of_In, in_flat_map.
  intros ([mult num] & Hin & Hx). exists mult, num.
  split; [by apply list_elem_of_In|].
  apply list_elem_of_In in Hx. by apply elem_of_replicate_inv in Hx.
Qed.

(** The cells of a volume filled from zeros with [d] slices of
    [w * h] cells each: every cell comes from one of the slices. *)
Lemma place_slices_cells h w d (sls : list (list Z)) x :
  0 ≤ h → 0 ≤ w → 0 ≤ d →
  length sls = Z.to_nat d →
  Forall (λ sl, length sl = Z.to_nat (w * h)) sls →
  x ∈ cells (place_slices (blank3 h w d) 0 sls) →
  ∃ sl, sl ∈ sls ∧ x ∈ sl.
Proof.
  intros Hh Hw Hd Hlen Hall Hx.
  apply list_elem_of_lookup in Hx as [idx Hx].
  pose proof (lookup_lt_Some _ _ _ Hx) as Hidx.
  rewrite (proj2 (place_slices_shape sls (blank3 h w d) 0)) in Hidx.
  cbn [cells blank3] in Hidx. rewrite length_replicate in Hidx.
  assert (0 < d) as Hd0 by nia.
  rewrite (place_slices_lookup sls (blank3 h w d) 0 idx 0) in Hx; [|lia|].
  2:{ cbn [cells blank3]. by apply lookup_replicate_2. }
  cbn zeta in Hx. cbn [shape blank3 snd] in Hx.
  pose proof (Z.mod_pos_bound (Z.of_nat idx) d Hd0) as Hj.
  destruct (_ && _) eqn:E in Hx; [|bool_lia]. clear E.
  destruct (lookup_lt_is_Some_2 sls (Z.to_nat (Z.of_nat idx `mod` d - 0)))
    as [sl Hsl]; [lia|].
  rewrite Hsl in Hx. cbn [mbind option_bind] in Hx.
  assert (length sl = Z.to_nat (w * h)) as Hsllen.
  { apply (proj1 (Forall_forall _ _) Hall). by eapply list_elem_of_lookup_2. }
  destruct (lookup_lt_is_Some_2 sl (idx `div` Z.to_nat d)%nat) as [y Hy].
  { rewrite Hsllen. apply Nat.Div0.div_lt_upper_bound.
    replace (Z.to_nat d * Z.to_nat (w * h))%nat with (Z.to_nat (h * w * d));
      [done|]. rewrite <- Z2Nat.inj_mul by nia. f_equal. lia. }
  rewrite Hy in Hx. cbn in Hx. injection Hx as <-.
  exists sl. split; by eapply list_elem_of_lookup_2.
Qed.

(** C6: when decoding returns a map, [get_data(i)] for [0 <= i < n_vols]
    returns an array of shape [(height, width, depth)], with that many
    cells, and each cell is the value byte [num] of a row
    [(mult, num)] of the bytes that follow the object table, hence a
    number of [0, 255]. *)
Theorem C6_decoded_volume_cells dt s m i :
  decode dt s = Return m →
  0 ≤ i < n_vols m →
  ∃ t rest maps_rle v,
    read_tables AnalyzeSpatialMap_init s = Return (t, rest)
    ∧ reshape_pairs rest = Return maps_rle
    ∧ fst (get_data m i) = Return v
    ∧ shape v = (height m, width m, depth m)
    ∧ length (cells v) = Z.to_nat (height m * width m * depth m)
    ∧ ∀ x, x ∈ cells v →
        0 ≤ x ≤ 255 ∧ ∃ mult num, (mult, num) ∈ maps_rle ∧ x = byte_val num.
Proof.
  intros Hd Hi. apply decode_Return in Hd
    as (t & rest & slices & more & Ht & Hr & Hlen & Hall & _ & _ & _ & _ & Hw
        & Hh & Hdp & _ & _ & Hn & Hv).
  destruct (read_tables_nonneg _ _ _ _ Ht) as (Hw0 & Hh0 & Hd0).
  exists t, rest, (concat slices ++ more),
    (place_slices (blank3 (height t) (width t) (depth t)) 0 (expand <$> slices)).
  split; [done|]. split; [done|].
  assert (i = 0) as -> by lia.
  split; [by rewrite (surjective_pairing (get_data m 0)); cbn; rewrite Hv|].
  destruct (place_slices_shape (expand <$> slices)
              (blank3 (height t) (width t) (depth t)) 0) as [Hshape Hcells].
  split; [by rewrite Hshape, Hw, Hh, Hdp|].
  split.
  { rewrite Hcells, Hw, Hh, Hdp. cbn. by rewrite length_replicate. }
  intros x Hx.
  apply place_slices_cells in Hx as (sl & Hsl & Hx); [|done..| |].
  - apply list_elem_of_fmap in Hsl as (rs & -> & Hrs).
    apply expand_elem in Hx as (mult & num & Hin & ->).
    split; [apply byte_val_range|]. exists mult, num. split; [|done].
    apply elem_of_app. left. apply list_elem_of_In, in_concat.
    exists rs. split; by apply list_elem_of_In.
  - by rewrite length_fmap.
  - apply Forall_fmap. eapply Forall_impl; [exact Hall|].
    intros rs Hrs. cbn. apply written_expand in Hrs. lia.
Qed.

Lemma C6_decoded_volume_cells_witness :
  ∃ t rest maps_rle v,
    read_tables AnalyzeSpatialMap_init example_file = Return (t, rest)
    ∧ reshape_pairs rest = Return maps_rle
    ∧ fst (get_data example_map 0) = Return v
    ∧ shape v = (height example_map, width example_map, depth example_map)
    ∧ length (cells v)
      = Z.to_nat (height example_map * width example_map * depth example_map)
    ∧ ∀ x, x ∈ cells v →
        0 ≤ x ≤ 255 ∧ ∃ mult num, (mult, num) ∈ maps_rle ∧ x = byte_val num.
Proof.
  apply (C6_decoded_volume_cells np_uint8 example_file example_map 0).
  - vm_compute; reflexivity.
  - cbn; lia.
Defined.

(** ** Encoding and decoding a dense volume (C8) *)

Lemma byte_val_of z : byte_val (byte_of z) = z `mod` 256.
Proof.
  unfold byte_val, byte_of.
  pose proof (Z.mod_pos_bound z 256 eq_refl) as Hz.
  destruct (Byte.of_N _) as [b|] eqn:E.
  - apply Byte.to_of_N in E. rewrite E. lia.
  - apply Byte.of_N_None_iff in E. lia.
Qed.

Lemma int_from_bytes_u32 v :
  0 ≤ v < 4294967296 → int_from_bytes (bytes (u32_be v)) = v.
Proof.
  intros Hv. unfold int_from_bytes, bytes, u32_be.
  cbn [fmap list_fmap fold_left]. rewrite !byte_val_of.
  rewrite !Z.mod_mod by done. Z.div_mod_to_equations. lia.
Qed.

Lemma bytes_app l1 l2 : bytes (l1 ++ l2) = bytes l1 ++ bytes l2.
Proof. apply fmap_app. Qed.

Lemma read_int_u32 v l :
  0 ≤ v < 4294967296 →
  read_int 4 (bytes (u32_be v ++ l)) = Return (v, bytes l).
Proof.
  intros Hv. rewrite read_int_eq, bytes_app.
  rewrite take_app_length', drop_app_length' by done.
  by rewrite int_from_bytes_u32.
Qed.

(** The tables of an encoded volume. *)
Lemma read_tables_encode vol h w d :
  shape vol = (h, w, d) →
  0 ≤ h < 4294967296 → 0 ≤ w < 4294967296 → 0 ≤ d < 4294967296 →
  read_tables AnalyzeSpatialMap_init (encode vol)
  = Return ({| version_code := 1; version := 6; width := w; height := h;
               depth := d; n_objects := 0; n_vols := 1; objects := [];
               vols := [] |}, bytes (encode_rle vol)).
Proof.
  intros Hs Hh Hw Hd. unfold encode, read_tables, io_bind. rewrite Hs.
  rewrite read_int_u32 by lia. change (1 <? 20050829) with true.
  cbn iota. cbn [read_header]. unfold io_bind.
  rewrite !read_int_u32 by lia. by cbn.
Qed.

Lemma bytes_cons x l : bytes (x :: l) = byte_of x :: bytes l.
Proof. reflexivity. Qed.

Lemma reshape_pairs_rows rs : ∀ l,
  reshape_pairs (bytes (flat_map (λ '(n, v), [Z.of_nat n; v]) rs ++ l))
  = rbind (reshape_pairs (bytes l)) (λ ps, Return (rows_of rs ++ ps)).
Proof.
  induction rs as [|[n v] rs IH]; intros l.
  - cbn [flat_map app rows_of fmap list_fmap].
    by destruct (reshape_pairs (bytes l)).
  - cbn [flat_map app rows_of fmap list_fmap]. rewrite !bytes_cons.
    cbn [reshape_pairs]. rewrite IH.
    by destruct (reshape_pairs (bytes l)).
Qed.

Lemma reshape_pairs_slices (f : nat → list (nat * Z)) ks :
  reshape_pairs (bytes (flat_map (λ k, flat_map (λ '(n, v), [Z.of_nat n; v])
                                        (f k)) ks))
  = Return (concat ((λ k, rows_of (f k)) <$> ks)).
Proof.
  induction ks as [|k ks IH]; [done|].
  cbn [flat_map fmap list_fmap concat].
  rewrite reshape_pairs_rows. fold (@fmap list _ nat _ (λ k, rows_of (f k)) ks).
  by rewrite IH.
Qed.

(** [collapse] loses nothing: its runs are not empty and, written out,
    give the slice back. *)
Lemma collapse_replicate sl :
  flat_map (λ '(n, v), replicate n v) (collapse sl) = sl
  ∧ Forall (λ '(n, _), (1 ≤ n)%nat) (collapse sl).
Proof.
  induction sl as [|x sl [IH1 IH2]]; [done|].
  cbn [collapse]. destruct (collapse sl) as [|[n y] rs] eqn:E.
  - cbn in IH1. subst sl. split; [done|]. repeat constructor.
  - destruct (x =? y) eqn:Exy.
    + apply Z.eqb_eq in Exy as ->. split.
      * cbn [flat_map replicate app]. f_equal. exact IH1.
      * apply Forall_cons in IH2 as [? ?]. constructor; [lia|done].
    + split.
      * cbn [flat_map replicate app]. f_equal. exact IH1.
      * constructor; [lia|done].
Qed.

Lemma collapse_values (P : Z → Prop) sl :
  Forall P sl → Forall (λ '(_, v), P v) (collapse sl).
Proof.
  induction 1 as [|x sl Hx Hsl IH]; [constructor|].
  cbn [collapse]. destruct (collapse sl) as [|[n y] rs].
  - by repeat constructor.
  - apply Forall_cons in IH as [Hy Hrs].
    destruct (x =? y); repeat constructor; done.
Qed.

(** Runs of one to 255 cells of byte value are decoded to what they
    stand for, and fill what they cover. *)
Lemma expand_rows rs :
  Forall (λ '(n, v), (n ≤ 255)%nat ∧ 0 ≤ v ≤ 255) rs →
  expand (rows_of rs) = flat_map (λ '(n, v), replicate n v) rs.
Proof.
  induction 1 as [|[n v] rs [Hn Hv] Hrs IH]; [done|].
  cbn [rows_of fmap list_fmap expand flat_map].
  fold (rows_of rs). fold (expand (rows_of rs)). rewrite IH.
  rewrite !byte_val_of, !Z.mod_small by lia. by rewrite Nat2Z.id.
Qed.

Lemma written_rows cap rs : ∀ p,
  Forall (λ '(n, v), (1 ≤ n ≤ 255)%nat) rs →
  0 ≤ p →
  p + Z.of_nat (length (flat_map (λ '(n, v), replicate n v) rs)) = cap →
  written cap p (rows_of rs) = Some cap.
Proof.
  induction rs as [|[n v] rs IH]; intros p Hall Hp Hlen.
  - cbn in *. f_equal. lia.
  - apply Forall_cons in Hall as [Hn Hall].
    cbn [flat_map] in Hlen. rewrite length_app, length_replicate in Hlen.
    cbn [rows_of fmap list_fmap written]. fold (rows_of rs).
    rewrite byte_val_of, Z.mod_small by lia.
    destruct (_ && _) eqn:E; [|bool_lia].
    apply IH; [done|lia|lia].
Qed.

Lemma depth_slice_lookup vol h w d k p :
  shape vol = (h, w, d) → (p < Z.to_nat (h * w))%nat →
  depth_slice vol k !! p
  = Some (default 0 (cells vol !! (p * Z.to_nat d + k)%nat)).
Proof.
  intros Hs Hp. unfold depth_slice. rewrite Hs, list_lookup_fmap.
  by rewrite (lookup_seq_lt _ _ _ Hp).
Qed.

Lemma depth_slice_length vol h w d k :
  shape vol = (h, w, d) → length (depth_slice vol k) = Z.to_nat (h * w).
Proof.
  intros Hs. unfold depth_slice. by rewrite Hs, length_fmap, length_seq.
Qed.

Lemma depth_slice_values (P : Z → Prop) vol k :
  P 0 → Forall P (cells vol) → Forall P (depth_slice vol k).
Proof.
  intros H0 Hall. unfold depth_slice. destruct (shape vol) as [[h w] d].
  apply Forall_fmap, Forall_forall. intros p _. cbn.
  destruct (cells vol !! _) as [x|] eqn:E; [|done].
  eapply Forall_forall; [exact Hall|]. by eapply list_elem_of_lookup_2.
Qed.

(** The slices of a volume, placed back depth after depth, make up the
    volume. *)
Lemma place_depth_slices vol h w d :
  shape vol = (h, w, d) → 0 ≤ h → 0 ≤ w → 0 ≤ d →
  length (cells vol) = Z.to_nat (h * w * d) →
  place_slices (blank3 h w d) 0 (depth_slice vol <$> seq 0 (Z.to_nat d)) = vol.
Proof.
  intros Hs Hh Hw Hd Hlen.
  set (sls := depth_slice vol <$> seq 0 (Z.to_nat d)).
  destruct (place_slices_shape sls (blank3 h w d) 0) as [Hshape Hcells].
  cbn [shape cells blank3] in Hshape, Hcells.
  rewrite length_replicate in Hcells.
  assert (cells (place_slices (blank3 h w d) 0 sls) = cells vol) as Hc.
  { apply list_eq. intros idx.
    destruct (decide (idx < Z.to_nat (h * w * d))%nat) as [Hidx|Hidx].
    2:{ rewrite !(proj2 (lookup_ge_None _ _)); [done|lia..]. }
    assert (0 < d) as Hd0 by nia.
    rewrite (place_slices_lookup sls (blank3 h w d) 0 idx 0); [|lia|].
    2:{ cbn [cells blank3]. by apply lookup_replicate_2. }
    cbn zeta. cbn [shape blank3 snd].
    pose proof (Z.mod_pos_bound (Z.of_nat idx) d Hd0) as Hj.
    assert (length sls = Z.to_nat d) as Hsls
      by (unfold sls; by rewrite length_fmap, length_seq).
    destruct (_ && _) eqn:E; [clear E|bool_lia].
    set (dn := Z.to_nat d) in *.
    assert (Z.to_nat (Z.of_nat idx `mod` d - 0) = idx `mod` dn)%nat as ->.
    { rewrite Z.sub_0_r. replace d with (Z.of_nat dn) by lia.
      by rewrite <- Nat2Z.inj_mod, Nat2Z.id. }
    assert (idx `mod` dn < dn)%nat as Hmod by (apply Nat.mod_upper_bound; lia).
    unfold sls. rewrite list_lookup_fmap, (lookup_seq_lt _ _ _ Hmod).
    cbn [fmap option_fmap option_map mbind option_bind Nat.add].
    rewrite (depth_slice_lookup vol h w d) by
      (done || (apply Nat.Div0.div_lt_upper_bound;
                replace (dn * Z.to_nat (h * w))%nat with (Z.to_nat (h * w * d));
                [done|unfold dn; rewrite <- Z2Nat.inj_mul by nia; f_equal; lia])).
    fold dn. replace (idx `div` dn * dn + idx `mod` dn)%nat with idx
      by (rewrite (Nat.div_mod_eq idx dn) at 1; lia).
    destruct (lookup_lt_is_Some_2 (cells vol) idx) as [x Hx]; [lia|].
    by rewrite Hx. }
  destruct vol as [sh cs]. cbn [shape cells] in *. subst sh.
  destruct (place_slices _ _ _) as [sh' cs']. cbn [shape cells] in *.
  by subst.
Qed.




(** * Further properties of the decoder *)

(** ** The layout of the header *)

Lemma fold_bytes_bound bs : ∀ acc k,
  0 ≤ acc < 256 ^ Z.of_nat k →
  fold_left (λ acc b, acc * 256 + byte_val b) bs acc
  < 256 ^ Z.of_nat (k + length bs).
Proof.
  induction bs as [|b bs IH]; intros acc k Hacc.
  - cbn [fold_left length]. rewrite Nat.add_0_r. lia.
  - cbn [fold_left length]. replace (k + S (length bs))%nat
      with (S k + length bs)%nat by lia.
    apply IH. pose proof (byte_val_range b).
    rewrite Nat2Z.inj_succ, Z.pow_succ_r by lia. lia.
Qed.

(** [int.from_bytes] of at most [n] bytes is an unsigned integer of
    [n] bytes. *)
Lemma int_from_bytes_unsigned n bs :
  (length bs ≤ n)%nat → unsigned n (int_from_bytes bs).
Proof.
  intros Hlen. split; [apply int_from_bytes_nonneg|].
  eapply Z.lt_le_trans; [apply (fold_bytes_bound bs 0 0); cbn; lia|].
  apply Z.pow_le_mono_r; lia.
Qed.

Lemma read_int_unsigned n s : unsigned n (int_from_bytes (take n s)).
Proof. apply int_from_bytes_unsigned. rewrite length_take. lia. Qed.

(** The header integers are the big-endian values of the groups of
    four bytes that follow. *)
Lemma read_header_values n : ∀ hd s,
  read_header n hd s
  = Return (hd ++ ((λ i, int_from_bytes (take 4 (drop (4 * i) s)))
                     <$> seq 0 n),
            drop (4 * n) s).
Proof.
  induction n as [|n IH]; intros hd s.
  - cbn. by rewrite app_nil_r.
  - cbn [read_header]. unfold io_bind. rewrite read_int_eq, IH.
    rewrite <- app_assoc, drop_drop. cbn [seq fmap list_fmap app].
    rewrite <- fmap_S_seq, <- list_fmap_compose.
    assert ((λ i, int_from_bytes (take 4 (drop (4 * i) (drop 4 s))))
              <$> seq 0 n
            = (λ i, int_from_bytes (take 4 (drop (4 * i) s))) ∘ S
              <$> seq 0 n) as ->.
    { apply list_fmap_ext. intros _ i _. cbn [compose].
      rewrite drop_drop. do 3 f_equal. lia. }
    replace (4 + 4 * n)%nat with (4 * S n)%nat by lia. reflexivity.
Qed.

Lemma read_head_values s :
  let vc := int_from_bytes (take 4 s) in
  let n := if vc <? 20050829 then 4%nat else 5%nat in
  read_head s
  = Return ((vc, (λ i, int_from_bytes (take 4 (drop (4 + 4 * i) s)))
                   <$> seq 0 n),
            drop (4 + 4 * n) s).
Proof.
  cbn zeta. unfold read_head, io_bind. rewrite read_int_eq, read_header_values.
  cbn [app io_ret]. rewrite drop_drop.
  set (n := if int_from_bytes (take 4 s) <? 20050829 then 4%nat else 5%nat).
  assert ((λ i, int_from_bytes (take 4 (drop (4 * i) (drop 4 s))))
            <$> seq 0 n
          = (λ i, int_from_bytes (take 4 (drop (4 + 4 * i) s)))
            <$> seq 0 n) as ->; [|done].
  apply list_fmap_ext. intros _ i _. cbn beta. by rewrite drop_drop.
Qed.

(** The header fields that [read_tables] sets, as bytes of the file. *)
Lemma read_tables_header self s t rest :
  read_tables self s = Return (t, rest) →
  version_code t = int_from_bytes (take 4 s)
  ∧ version t = (if version_code t <? 20050829 then 6 else 7)
  ∧ width t = int_from_bytes (take 4 (drop 4 s))
  ∧ height t = int_from_bytes (take 4 (drop 8 s))
  ∧ depth t = int_from_bytes (take 4 (drop 12 s))
  ∧ n_objects t = int_from_bytes (take 4 (drop 16 s)).
Proof.
  rewrite (read_tables_objects self s _ _ _ (read_head_values s)).
  destruct (read_objects _ _ _) as [[objs s2]|e]; [|done].
  intros [= <- <-]. cbn [version_code version width height depth n_objects].
  by destruct (int_from_bytes (take 4 s) <? 20050829).
Qed.

(** X1: in a decoded map the version code is the big-endian value of
    the bytes 0 to 3 of the file, the version is 6 below 20050829 and 7
    from there on, and width, height, depth and object count are the
    big-endian values of the bytes 4 to 7, 8 to 11, 12 to 15 and 16 to
    19, in this order. *)
Theorem X1_header_layout dt s m :
  decode dt s = Return m →
  version_code m = int_from_bytes (take 4 s)
  ∧ version m = (if version_code m <? 20050829 then 6 else 7)
  ∧ width m = int_from_bytes (take 4 (drop 4 s))
  ∧ height m = int_from_bytes (take 4 (drop 8 s))
  ∧ depth m = int_from_bytes (take 4 (drop 12 s))
  ∧ n_objects m = int_from_bytes (take 4 (drop 16 s)).
Proof.
  intros Hd. apply decode_Return in Hd
    as (t & rest & slices & more & Ht & _ & _ & _ & _ & _ & -> & -> & -> & ->
        & -> & -> & _).
  by apply read_tables_header in Ht.
Qed.

Lemma X1_header_layout_witness :
  version_code example_map = int_from_bytes (take 4 example_file)
  ∧ version example_map = (if version_code example_map <? 20050829 then 6 else 7)
  ∧ width example_map = int_from_bytes (take 4 (drop 4 example_file))
  ∧ height example_map = int_from_bytes (take 4 (drop 8 example_file))
  ∧ depth example_map = int_from_bytes (take 4 (drop 12 example_file))
  ∧ n_objects example_map = int_from_bytes (take 4 (drop 16 example_file)).
Proof.
  apply (X1_header_layout np_uint8 example_file example_map).
  vm_compute; reflexivity.
Defined.

(** X2: the header fields of a decoded map are unsigned integers of
    four bytes: none is negative and none reaches 2^32. *)
Theorem X2_header_fields_unsigned dt s m :
  decode dt s = Return m →
  unsigned 4 (version_code m) ∧ unsigned 4 (width m) ∧ unsigned 4 (height m)
  ∧ unsigned 4 (depth m) ∧ unsigned 4 (n_objects m).
Proof.
  intros Hd. apply decode_Return in Hd
    as (t & rest & slices & more & Ht & _ & _ & _ & _ & _ & -> & _ & -> & ->
        & -> & -> & _).
  apply read_tables_header in Ht as (-> & _ & -> & -> & -> & ->).
  repeat split; apply read_int_unsigned.
Qed.

Lemma X2_header_fields_unsigned_witness :
  unsigned 4 (version_code example_map) ∧ unsigned 4 (width example_map)
  ∧ unsigned 4 (height example_map) ∧ unsigned 4 (depth example_map)
  ∧ unsigned 4 (n_objects example_map).
Proof.
  apply (X2_header_fields_unsigned np_uint8 example_file example_map).
  vm_compute; reflexivity.
Defined.

(** ** The object table *)

Lemma read_objects_position n : ∀ objs s objs' s',
  read_objects n objs s = Return (objs', s') →
  (152 * n ≤ length s ∨ n = 0)%nat ∧ s' = drop (152 * n) s
  ∧ ∃ new, objs' = objs ++ new ∧ length new = n.
Proof.
  induction n as [|n IH]; intros objs s objs' s'.
  - intros [= <- <-]. split; [by right|]. split; [done|].
    exists []. by rewrite app_nil_r.
  - cbn [read_objects]. unfold io_bind.
    destruct (read_object s) as [[o s1]|e] eqn:Ho; [|done].
    apply read_object_Return in Ho as (Hl & -> & _).
    intros H. apply IH in H as (Hlen & -> & new & -> & Hnew).
    rewrite length_drop in Hlen. split; [left; lia|].
    split; [rewrite drop_drop; f_equal; lia|].
    exists (o :: new). rewrite <- app_assoc. split; [done|cbn; lia].
Qed.

(** Where the tables end, and how many objects they hold. *)
Lemma read_tables_position self s t rest :
  read_tables self s = Return (t, rest) →
  rest = drop (tables_size t) s
  ∧ (0 < n_objects t → (tables_size t ≤ length s)%nat)
  ∧ ∃ new, objects t = objects self ++ new
           ∧ length new = Z.to_nat (n_objects t).
Proof.
  rewrite (read_tables_objects self s _ _ _ (read_head_values s)).
  remember (if int_from_bytes (take 4 s) <? 20050829 then 4%nat else 5%nat)
    as k eqn:Hk.
  remember ((λ i, int_from_bytes (take 4 (drop (4 + 4 * i) s))) <$> seq 0 k)
    as header eqn:Hh. clear Hh.
  destruct (read_objects _ _ _) as [[objs s2]|e] eqn:Ho; [|done].
  intros [= <- <-]. unfold tables_size.
  cbn [version_code n_objects objects]. rewrite <- Hk.
  apply read_objects_position in Ho as (Hlen & -> & new & -> & Hnew).
  rewrite drop_drop, length_drop in *.
  split; [done|]. split; [|by exists new]. intros Hn. lia.
Qed.

Lemma reshape_pairs_Return bs rs :
  reshape_pairs bs = Return rs → Nat.even (length bs) = true.
Proof.
  intros H. rewrite <- Nat.negb_odd.
  destruct (Nat.odd (length bs)) eqn:E; [|done].
  by rewrite (reshape_pairs_odd _ E) in H.
Qed.

(** X3: a decoded map holds as many objects as its header declares;
    the bytes of the file after its header and its object table
    (152 bytes an object) are even in number; and when an object is
    declared the file holds the tables in full. *)
Theorem X3_object_table_size dt s m :
  decode dt s = Return m →
  length (objects m) = Z.to_nat (n_objects m)
  ∧ Nat.even (length s - tables_size m) = true
  ∧ (0 < n_objects m → (tables_size m ≤ length s)%nat).
Proof.
  intros Hd. apply decode_Return in Hd
    as (t & rest & slices & more & Ht & Hr & _ & _ & _ & _ & Hvc & _ & _ & _
        & _ & Hn & Hobjs & _).
  apply read_tables_position in Ht as (-> & Hsize & new & Hnew & Hlen).
  cbn [objects AnalyzeSpatialMap_init app] in Hnew.
  apply reshape_pairs_Return in Hr. rewrite length_drop in Hr.
  unfold tables_size in *. rewrite Hvc, Hn, Hobjs, Hnew. done.
Qed.

Lemma X3_object_table_size_witness :
  length (objects example_map) = Z.to_nat (n_objects example_map)
  ∧ Nat.even (length example_file - tables_size example_map) = true
  ∧ (0 < n_objects example_map → (tables_size example_map ≤ length example_file)%nat).
Proof.
  apply (X3_object_table_size np_uint8 example_file example_map).
  vm_compute; reflexivity.
Defined.

(** What holds of every object that [read_object] returns holds of
    every object of a decoded map. *)
Lemma read_objects_all (P : SpatialObject → Prop) :
  (∀ s o s', read_object s = Return (o, s') → P o) →
  ∀ n objs s objs' s',
    Forall P objs →
    read_objects n objs s = Return (objs', s') → Forall P objs'.
Proof.
  intros HP. induction n as [|n IH]; intros objs s objs' s' Hobjs.
  - by intros [= <- <-].
  - cbn [read_objects]. unfold io_bind.
    destruct (read_object s) as [[o s1]|e] eqn:Ho; [|done].
    apply IH. apply Forall_app. split; [done|].
    constructor; [by eapply HP|constructor].
Qed.

Lemma decode_objects_all (P : SpatialObject → Prop) dt s m :
  (∀ s o s', read_object s = Return (o, s') → P o) →
  decode dt s = Return m → Forall P (objects m).
Proof.
  intros HP Hd. apply decode_Return in Hd
    as (t & rest & slices & more & Ht & _ & _ & _ & _ & _ & _ & _ & _ & _ & _
        & _ & -> & _).
  rewrite (read_tables_objects _ s _ _ _ (read_head_values s)) in Ht.
  destruct (read_objects _ _ _) as [[objs s2]|e] eqn:Ho; [|done].
  injection Ht as <- <-. cbn [objects].
  eapply (read_objects_all P HP); [|exact Ho]. constructor.
Qed.

Lemma read_object_unsigned s o s' :
  read_object s = Return (o, s') → object_unsigned o.
Proof.
  unfold_reads. destruct (_read_nts (take 32 s)) as [nm|e]; [|done].
  case_unpack E1; [|done]. case_unpack E2; [|done].
  intros [= <- <-]. unfold object_unsigned. cbn.
  repeat split; apply read_int_unsigned.
Qed.

(** X4: every integer field of every object of a decoded map is an
    unsigned integer of the width read for it (one, two or four bytes):
    the fields that hold shifts, rotations or bounding boxes are never
    negative. *)
Theorem X4_object_fields_unsigned dt s m :
  decode dt s = Return m → Forall object_unsigned (objects m).
Proof. apply decode_objects_all. apply read_object_unsigned. Qed.

Lemma X4_object_fields_unsigned_witness :
  Forall object_unsigned (objects one_object_map).
Proof.
  apply (X4_object_fields_unsigned np_uint8 one_object_file one_object_map).
  vm_compute; reflexivity.
Defined.

(** ** Object names *)

Lemma before_null_spec bs :
  (length (before_null bs) ≤ length bs)%nat
  ∧ Forall (λ b, byte_val b ≠ 0) (before_null bs).
Proof.
  induction bs as [|b bs [IH1 IH2]]; [by split|].
  cbn [before_null]. destruct (byte_val b =? 0) eqn:E.
  - split; [cbn; lia|constructor].
  - apply Z.eqb_neq in E. split; [cbn; lia|by constructor].
Qed.

(** The bytes from the first null byte on do not count. *)
Lemma before_null_app pre z post :
  Forall (λ b, byte_val b ≠ 0) pre → byte_val z = 0 →
  before_null (pre ++ z :: post) = pre ∧ before_null pre = pre.
Proof.
  intros Hpre Hz. induction Hpre as [|b pre Hb Hpre [IH1 IH2]].
  - cbn. by rewrite Hz.
  - cbn [app before_null]. apply Z.eqb_neq in Hb. rewrite Hb.
    by rewrite IH1, IH2.
Qed.

(** One step of [utf8_decode] on values of one byte: the code point
    found and the bytes that follow it. *)
Lemma utf8_decode_step b0 t0 cps :
  Forall (λ b, 0 < b ≤ 255) (b0 :: t0) →
  utf8_decode (b0 :: t0) = Some cps →
  ∃ c t cps', cps = c :: cps' ∧ utf8_decode t = Some cps'
    ∧ (length t < length (b0 :: t0))%nat
    ∧ Forall (λ b, 0 < b ≤ 255) t ∧ 0 < c ≤ 1114111.
Proof.
  intros Hall. apply Forall_cons in Hall as [Hb0 Ht0].
  cbn [utf8_decode]. unfold in_range.
  destruct (b0 <? 128) eqn:E1.
  { destruct (utf8_decode t0) as [cps'|] eqn:Hd; [|done].
    intros [= <-]. exists b0, t0, cps'. repeat split; try done; cbn; bool_lia. }
  destruct ((194 <=? b0) && (b0 <=? 223)) eqn:E2.
  { destruct t0 as [|b1 t1]; [done|].
    apply Forall_cons in Ht0 as [Hb1 Ht1].
    destruct ((128 <=? b1) && (b1 <=? 191)) eqn:E3; [|done].
    destruct (utf8_decode t1) as [cps'|] eqn:Hd; [|done].
    intros [= <-]. eexists _, t1, cps'.
    repeat split; try done; cbn; bool_lia. }
  destruct ((224 <=? b0) && (b0 <=? 239)) eqn:E3.
  { destruct t0 as [|b1 [|b2 t2]]; [done|done|].
    apply Forall_cons in Ht0 as [Hb1 Ht1].
    apply Forall_cons in Ht1 as [Hb2 Ht2].
    destruct (b0 =? 224) eqn:?; destruct (b0 =? 237) eqn:?;
      (destruct (_ && _) eqn:E4 in |- *; [|done]);
      (destruct (utf8_decode t2) as [cps'|] eqn:Hd; [|done]);
      intros [= <-]; eexists _, t2, cps';
      repeat split; try done; cbn; bool_lia. }
  destruct ((240 <=? b0) && (b0 <=? 244)) eqn:E4; [|done].
  destruct t0 as [|b1 [|b2 [|b3 t3]]]; [done|done|done|].
  apply Forall_cons in Ht0 as [Hb1 Ht1].
  apply Forall_cons in Ht1 as [Hb2 Ht2].
  apply Forall_cons in Ht2 as [Hb3 Ht3].
  destruct (b0 =? 240) eqn:?; destruct (b0 =? 244) eqn:?;
    (destruct (_ && _) eqn:E5 in |- *; [|done]);
    (destruct (utf8_decode t3) as [cps'|] eqn:Hd; [|done]);
    intros [= <-]; eexists _, t3, cps';
    repeat split; try done; cbn; bool_lia.
Qed.

(** A decoded text has at most as many code points as it had bytes,
    and its code points lie between 1 and 0x10FFFF when no byte is
    null. *)
Lemma utf8_decode_bounds bs : ∀ cps,
  Forall (λ b, 0 < b ≤ 255) bs →
  utf8_decode bs = Some cps →
  (length cps ≤ length bs)%nat ∧ Forall (λ c, 0 < c ≤ 1114111) cps.
Proof.
  induction bs as [bs IH] using (induction_ltof1 _ (@length Z)).
  unfold ltof in IH. intros cps Hall Hd. destruct bs as [|b0 t0].
  - injection Hd as <-. by split.
  - destruct (utf8_decode_step _ _ _ Hall Hd)
      as (c & t & cps' & -> & Hd' & Hlt & Hall' & Hc).
    destruct (IH t Hlt cps' Hall' Hd') as [Hlen Hcps].
    split; [cbn [length] in *; lia|by constructor].
Qed.

Lemma _read_nts_bounds bytecode nm :
  _read_nts bytecode = Return nm →
  (length nm ≤ length bytecode)%nat ∧ Forall (λ c, 0 < c ≤ 1114111) nm.
Proof.
  unfold _read_nts.
  destruct (utf8_decode _) as [cps|] eqn:Hd; [|done]. intros [= <-].
  destruct (before_null_spec bytecode) as [Hlen Hnz].
  apply utf8_decode_bounds in Hd as [Hl Hc].
  - rewrite length_fmap in Hl. split; [lia|done].
  - apply Forall_fmap. eapply Forall_impl; [exact Hnz|].
    intros b Hb. unfold compose. pose proof (byte_val_range b).
    cbn beta in *. lia.
Qed.

Lemma read_object_name s o s' :
  read_object s = Return (o, s') →
  (length (name o) ≤ 32)%nat ∧ Forall (λ c, 0 < c ≤ 1114111) (name o).
Proof.
  unfold_reads. destruct (_read_nts (take 32 s)) as [nm|e] eqn:Hn; [|done].
  case_unpack E1; [|done]. case_unpack E2; [|done].
  intros [= <- <-]. cbn [name].
  apply _read_nts_bounds in Hn as [Hl Hc]. rewrite length_take in Hl.
  split; [lia|done].
Qed.

(** X5: the name of every object of a decoded map has at most 32 code
    points, each between 1 and 0x10FFFF: a name never holds the null
    character. *)
Theorem X5_object_names_bounded dt s m :
  decode dt s = Return m →
  Forall (λ o, (length (name o) ≤ 32)%nat
               ∧ Forall (λ c, 0 < c ≤ 1114111) (name o)) (objects m).
Proof.
  apply (decode_objects_all
           (λ o, (length (name o) ≤ 32)%nat
                 ∧ Forall (λ c, 0 < c ≤ 1114111) (name o))).
  apply read_object_name.
Qed.

Lemma X5_object_names_bounded_witness :
  Forall (λ o, (length (name o) ≤ 32)%nat
               ∧ Forall (λ c, 0 < c ≤ 1114111) (name o))
         (objects one_object_map).
Proof.
  apply (X5_object_names_bounded np_uint8 one_object_file one_object_map).
  vm_compute; reflexivity.
Defined.

(** X6: [_read_nts] stops at the first null byte: whatever follows it,
    well-formed or not, changes nothing, and a slot that starts with a
    null byte gives the empty name. *)
Theorem X6_name_ends_at_null pre z post :
  Forall (λ b, byte_val b ≠ 0) pre → byte_val z = 0 →
  _read_nts (pre ++ z :: post) = _read_nts pre
  ∧ _read_nts (z :: post) = Return [].
Proof.
  intros Hpre Hz. unfold _read_nts.
  destruct (before_null_app pre z post Hpre Hz) as [-> ->].
  split; [done|]. cbn [before_null]. by rewrite Hz.
Qed.

Lemma X6_name_ends_at_null_witness :
  _read_nts (bytes [97; 98] ++ byte_of 0 :: bytes [255; 254])
  = _read_nts (bytes [97; 98])
  ∧ _read_nts (byte_of 0 :: bytes [255; 254]) = Return [].
Proof.
  apply (X6_name_ends_at_null (bytes [97; 98]) (byte_of 0) (bytes [255; 254])).
  - repeat constructor; vm_compute; discriminate.
  - reflexivity.
Defined.

Lemma utf8_decode_ascii bs :
  Forall (λ b, 0 ≤ b < 128) bs → utf8_decode bs = Some bs.
Proof.
  induction 1 as [|b bs Hb Hbs IH]; [done|].
  cbn [utf8_decode]. destruct (b <? 128) eqn:E; [|bool_lia].
  by rewrite IH.
Qed.

(** X7: a name of ASCII bytes (1 to 127), ended by a null byte or by
    the end of the slot, is decoded to the code points of these
    bytes. *)
Theorem X7_ascii_name pre z post :
  Forall (λ b, 0 < byte_val b < 128) pre → byte_val z = 0 →
  _read_nts (pre ++ z :: post) = Return (byte_val <$> pre)
  ∧ _read_nts pre = Return (byte_val <$> pre).
Proof.
  intros Hpre Hz. unfold _read_nts.
  destruct (before_null_app pre z post) as [-> ->]; [|done|].
  { eapply Forall_impl; [exact Hpre|]. intros b Hb. cbn beta in Hb. lia. }
  rewrite utf8_decode_ascii; [done|].
  apply Forall_fmap. eapply Forall_impl; [exact Hpre|].
  intros b Hb. unfold compose. cbn beta in *. lia.
Qed.

Lemma X7_ascii_name_witness :
  _read_nts (bytes [97; 98] ++ byte_of 0 :: bytes [255; 254])
  = Return (byte_val <$> bytes [97; 98])
  ∧ _read_nts (bytes [97; 98]) = Return (byte_val <$> bytes [97; 98]).
Proof.
  apply (X7_ascii_name (bytes [97; 98]) (byte_of 0) (bytes [255; 254])).
  - repeat constructor; vm_compute; done.
  - reflexivity.
Defined.

Lemma utf8_decode_bad_lead b0 t :
  128 ≤ b0 ≤ 193 ∨ 245 ≤ b0 → utf8_decode (b0 :: t) = None.
Proof.
  intros Hb. cbn [utf8_decode]. unfold in_range.
  destruct (b0 <? 128) eqn:E1; [bool_lia|].
  destruct ((194 <=? b0) && (b0 <=? 223)) eqn:E2; [bool_lia|].
  destruct ((224 <=? b0) && (b0 <=? 239)) eqn:E3; [bool_lia|].
  destruct ((240 <=? b0) && (b0 <=? 244)) eqn:E4; [bool_lia|]. done.
Qed.

(** X8: when an object is declared and its name slot starts with a
    byte that cannot start a UTF-8 sequence (0x80 to 0xC1, or 0xF5 and
    above), decoding raises UnicodeDecodeError (the kind
    InvalidEncodingError), however short the record is: the name is
    decoded before any other field is read. *)
Theorem X8_ill_formed_name_fails dt s vc header b rest :
  read_head s = Return ((vc, header), b :: rest) →
  0 < nth 3 header 0 →
  128 ≤ byte_val b ≤ 193 ∨ 245 ≤ byte_val b →
  fails_with (decode dt s) InvalidEncodingError.
Proof.
  intros Hh Hn Hb. exists UnicodeDecodeError. split; [|done].
  unfold decode. rewrite from_file_stages. unfold io_bind.
  rewrite (read_tables_objects _ _ _ _ _ Hh).
  destruct (Z.to_nat (nth 3 header 0)) as [|n] eqn:En; [lia|].
  cbn [read_objects]. unfold io_bind.
  rewrite (read_object_name_error (b :: rest) UnicodeDecodeError); [done|].
  unfold _read_nts. cbn [take firstn before_null].
  destruct (byte_val b =? 0) eqn:E; [bool_lia|].
  cbn [fmap list_fmap]. by rewrite utf8_decode_bad_lead.
Qed.

Lemma X8_ill_formed_name_fails_witness :
  fails_with (decode np_uint8 bad_name_file) InvalidEncodingError.
Proof.
  apply (X8_ill_formed_name_fails np_uint8 bad_name_file 1 [0; 0; 0; 1] (byte_of 255) []).
  - vm_compute; reflexivity.
  - cbn; lia.
  - right. vm_compute. discriminate.
Defined.


(** ** The rows and the volume *)

(** X9: take a file whose tables are read and whose remaining bytes
    split into rows, whose volume [np.zeros] accepts, and whose slices
    have no more cells than the dtype of the counter can count.  When
    the rows fill fewer slices than the depth and stop inside the next
    slice (or before it, the slice having cells), decoding raises the
    IndexError of [maps_rle[i, :]] (the kind EndOfStreamError). *)
Theorem X9_rows_exhausted_fails dt s t rest slices part p :
  read_tables AnalyzeSpatialMap_init s = Return (t, rest) →
  reshape_pairs rest = Return (concat slices ++ part) →
  Forall (λ rs, written (width t * height t) 0 rs = Some (width t * height t))
         slices →
  Z.of_nat (length slices) < depth t →
  written (width t * height t) 0 part = Some p →
  p < width t * height t →
  array_too_big [height t; width t; depth t] = false →
  width t * height t ≤ counter_max dt →
  fails_with (decode dt s) EndOfStreamError.
Proof.
  intros Ht Hr Hall Hdepth Hpart Hp Hbig Hmax.
  exists IndexError_ndarray. split; [|done].
  destruct (read_tables_keeps _ _ _ _ Ht) as (Hn & Hv & _). cbn in Hn, Hv.
  destruct (read_tables_nonneg _ _ _ _ Ht) as (Hw0 & Hh0 & Hd0).
  unfold decode. rewrite from_file_stages. unfold io_bind. rewrite Ht.
  unfold read_volumes, io_bind, read_all, io_lift. rewrite Hr, Hn, Hv.
  cbn [rbind]. change (Z.to_nat 1) with 1%nat. cbn [fill_volumes].
  unfold zeros3. rewrite Hbig. cbn [rbind].
  assert (array_too_big [width t * height t] = false) as Hbig1
    by (apply (array_fits_slice (height t) (width t) (depth t)); lia || done).
  set (cap := width t * height t) in *.
  pose proof (written_le _ _ _ _ Hpart) as Hp0.
  destruct (Z.to_nat (depth t)) as [|todo] eqn:Hd; [lia|].
  replace (S todo) with (length slices + S (todo - length slices))%nat by lia.
  rewrite fill_volume_slices by (done || lia).
  cbn [fill_volume]. fold cap. unfold zeros1. rewrite Hbig1. cbn [rbind].
  rewrite <- (app_nil_r part).
  rewrite (fill_slice_written dt cap part 0 _ p [] Hpart);
    [|lia|apply length_blank1; lia|done].
  cbn [fill_slice]. by destruct (p <? cap) eqn:E; [|lia].
Qed.

Lemma X9_rows_exhausted_fails_witness :
  fails_with (decode np_uint8 exhausted_file) EndOfStreamError.
Proof.
  apply (X9_rows_exhausted_fails np_uint8 exhausted_file
           {| version_code := 1; version := 6; width := 2; height := 2;
              depth := 1; n_objects := 0; n_vols := 1; objects := [];
              vols := [] |}
           (bytes [3; 7]) [] [(byte_of 3, byte_of 7)] 3).
  - vm_compute; reflexivity.
  - reflexivity.
  - constructor.
  - cbn; lia.
  - reflexivity.
  - cbn; lia.
  - reflexivity.
  - cbn; lia.
Defined.

(** The cell [(r, c, k)] of a volume filled from zeros with [d] slices
    of [w * h] cells: the cell [r * w + c] of the slice [k]. *)
Lemma place_slices_item3 h w d (sls : list (list Z)) r c k :
  length sls = Z.to_nat d →
  Forall (λ sl, length sl = Z.to_nat (w * h)) sls →
  0 ≤ r < h → 0 ≤ c < w → 0 ≤ k < d →
  item3 (place_slices (blank3 h w d) 0 sls) r c k
  = sls !! Z.to_nat k ≫= λ sl, sl !! Z.to_nat (r * w + c).
Proof.
  intros Hlen Hall Hr Hc Hk. unfold item3.
  rewrite (proj1 (place_slices_shape sls (blank3 h w d) 0)).
  cbn [shape blank3]. unfold in_range.
  destruct (r <? 0) eqn:Er; [lia|]. destruct (c <? 0) eqn:Ec; [lia|].
  destruct (k <? 0) eqn:Ek; [lia|].
  destruct (_ && _) eqn:E; [clear E|bool_lia].
  set (p := r * w + c).
  assert (0 ≤ p < w * h) as Hp by (unfold p; nia).
  assert (Z.to_nat (p * d + k) < Z.to_nat (h * w * d))%nat as Hidx by nia.
  rewrite (place_slices_lookup sls (blank3 h w d) 0 _ 0); [|lia|].
  2:{ cbn [cells blank3]. by apply lookup_replicate_2. }
  cbn zeta. cbn [shape blank3 snd].
  rewrite Z2Nat.id by nia.
  assert ((p * d + k) `mod` d = k) as ->.
  { rewrite Z.add_comm, Z.mod_add by lia. apply Z.mod_small. lia. }
  destruct (_ && _) eqn:E; [clear E|bool_lia].
  rewrite Z.sub_0_r, <- Z2Nat.inj_div by nia.
  assert ((p * d + k) `div` d = p) as ->.
  { rewrite Z.add_comm, Z.div_add by lia. rewrite Z.div_small by lia. lia. }
  destruct (lookup_lt_is_Some_2 sls (Z.to_nat k)) as [sl Hsl]; [lia|].
  rewrite Hsl. cbn [mbind option_bind].
  assert (length sl = Z.to_nat (w * h)) as Hsllen.
  { apply (proj1 (Forall_forall _ _) Hall). by eapply list_elem_of_lookup_2. }
  destruct (lookup_lt_is_Some_2 sl (Z.to_nat p)) as [y Hy]; [lia|].
  by rewrite Hy.
Qed.

(** X10: take a file whose volume [np.zeros] accepts and, when the
    volume has a slice, whose slices have no more cells than the dtype
    of the counter can count.  When the rows that follow the tables
    start with [depth] groups of runs, each group filling the
    [width * height] cells of a slice exactly, decoding returns a map
    with the header fields and objects of the tables and one volume of
    shape (height, width, depth); its cell [(r, c, k)] is the cell
    [r * width + c] of the expansion of the group [k]; the rows after
    the last group are not looked at. *)
Theorem X10_filled_slices_decode dt s t rest slices more :
  read_tables AnalyzeSpatialMap_init s = Return (t, rest) →
  reshape_pairs rest = Return (concat slices ++ more) →
  length slices = Z.to_nat (depth t) →
  Forall (λ rs, written (width t * height t) 0 rs = Some (width t * height t))
         slices →
  array_too_big [height t; width t; depth t] = false →
  (0 < depth t → width t * height t ≤ counter_max dt) →
  ∃ m v, decode dt s = Return m
    ∧ width m = width t ∧ height m = height t ∧ depth m = depth t
    ∧ n_objects m = n_objects t ∧ objects m = objects t
    ∧ vols m = [v] ∧ shape v = (height t, width t, depth t)
    ∧ ∀ r c k, 0 ≤ r < height t → 0 ≤ c < width t → 0 ≤ k < depth t →
        item3 v r c k
        = slices !! Z.to_nat k ≫= λ rs, expand rs !! Z.to_nat (r * width t + c).
Proof.
  intros Ht Hr Hlen Hall Hbig Hfit. eexists _, _.
  split; [by apply (decode_slices dt s t rest slices more)|].
  cbn [width height depth n_objects objects vols].
  repeat split; try done.
  - by rewrite (proj1 (place_slices_shape _ _ _)).
  - intros r c k Hrr Hc Hk.
    rewrite place_slices_item3; [|by rewrite length_fmap| |done..].
    + rewrite list_lookup_fmap. by destruct (slices !! Z.to_nat k).
    + apply Forall_fmap. eapply Forall_impl; [exact Hall|].
      intros rs Hrs. cbn. apply written_expand in Hrs. lia.
Qed.

Lemma X10_filled_slices_decode_witness :
  ∃ m v, decode np_uint8 layout_file = Return m
    ∧ width m = 2 ∧ height m = 3 ∧ depth m = 2
    ∧ n_objects m = 0 ∧ objects m = []
    ∧ vols m = [v] ∧ shape v = (3, 2, 2)
    ∧ ∀ r c k, 0 ≤ r < 3 → 0 ≤ c < 2 → 0 ≤ k < 2 →
        item3 v r c k
        = layout_slices !! Z.to_nat k ≫= λ rs, expand rs !! Z.to_nat (r * 2 + c).
Proof.
  apply (X10_filled_slices_decode np_uint8 layout_file layout_tables
           (bytes [2; 1; 4; 2; 1; 3; 1; 4; 1; 5; 3; 6; 9; 9])
           layout_slices [(byte_of 9, byte_of 9)]).
  - vm_compute; reflexivity.
  - reflexivity.
  - reflexivity.
  - repeat constructor.
  - reflexivity.
  - cbn; lia.
Defined.

(** X11: when decoding returns a map, the rows that follow the tables
    start with [depth] groups of runs, and the run lengths of each
    group add up to [width * height] without a run crossing the end of
    its slice. *)
Theorem X11_decoded_rows_fill_slices dt s m :
  decode dt s = Return m →
  ∃ t rest slices more,
    read_tables AnalyzeSpatialMap_init s = Return (t, rest)
    ∧ reshape_pairs rest = Return (concat slices ++ more)
    ∧ length slices = Z.to_nat (depth m)
    ∧ Forall (λ rs, written (width m * height m) 0 rs
                    = Some (width m * height m)
                    ∧ Z.of_nat (length (expand rs)) = width m * height m)
             slices.
Proof.
  intros Hd. apply decode_Return in Hd
    as (t & rest & slices & more & Ht & Hr & Hlen & Hall & _ & _ & _ & _
        & -> & -> & -> & _).
  exists t, rest, slices, more. repeat split; try done.
  eapply Forall_impl; [exact Hall|]. intros rs Hrs. split; [done|].
  apply written_expand in Hrs. lia.
Qed.

Lemma X11_decoded_rows_fill_slices_witness :
  ∃ t rest slices more,
    read_tables AnalyzeSpatialMap_init example_file = Return (t, rest)
    ∧ reshape_pairs rest = Return (concat slices ++ more)
    ∧ length slices = Z.to_nat (depth example_map)
    ∧ Forall (λ rs, written (width example_map * height example_map) 0 rs
                    = Some (width example_map * height example_map)
                    ∧ Z.of_nat (length (expand rs))
                      = width example_map * height example_map)
             slices.
Proof.
  apply (X11_decoded_rows_fill_slices np_uint8 example_file example_map).
  vm_compute; reflexivity.
Defined.

Lemma concat_replicate_nil {A} n : concat (replicate n (@nil A)) = [].
Proof. induction n as [|n IH]; [done|]. by cbn. Qed.

(** X12: when the tables are read, the bytes after them are even in
    number, the header gives [width * height = 0] or [depth = 0], and
    [np.zeros] accepts the shape (the product of its extents other than
    0, times 8, stays below 2^63), decoding returns a map whose volume
    has the shape of the header and no cell, whatever the rows are:
    none of them is looked at. *)
Theorem X12_empty_extent_decodes dt s t rest :
  read_tables AnalyzeSpatialMap_init s = Return (t, rest) →
  Nat.even (length rest) = true →
  width t * height t = 0 ∨ depth t = 0 →
  array_too_big [height t; width t; depth t] = false →
  ∃ m v, decode dt s = Return m ∧ vols m = [v]
    ∧ shape v = (height t, width t, depth t) ∧ cells v = [].
Proof.
  intros Ht Heven Hzero Hbig.
  destruct (reshape_pairs_even _ Heven) as (rows & Hr & _).
  destruct (read_tables_nonneg _ _ _ _ Ht) as (Hw0 & Hh0 & Hd0).
  eexists _, _. split.
  { apply (decode_slices dt s t rest (replicate (Z.to_nat (depth t)) []) rows).
    - done.
    - by rewrite concat_replicate_nil.
    - by rewrite length_replicate.
    - destruct Hzero as [Hcap|Hdepth].
      + apply Forall_replicate. cbn. by rewrite Hcap.
      + rewrite Hdepth. constructor.
    - done.
    - intros Hd. pose proof (counter_max_255 dt). lia. }
  cbn [vols]. split; [done|].
  destruct (place_slices_shape (expand <$> replicate (Z.to_nat (depth t)) [])
              (blank3 (height t) (width t) (depth t)) 0) as [-> Hlen].
  split; [done|]. apply nil_length_inv. rewrite Hlen. cbn [cells blank3].
  rewrite length_replicate. nia.
Qed.

Lemma X12_empty_extent_decodes_witness :
  ∃ m v, decode np_uint8 flat_file = Return m ∧ vols m = [v]
    ∧ shape v = (3, 2, 0) ∧ cells v = [].
Proof.
  apply (X12_empty_extent_decodes np_uint8 flat_file flat_tables
           (bytes [5; 7; 1; 2])).
  - vm_compute; reflexivity.
  - reflexivity.
  - right. reflexivity.
  - reflexivity.
Defined.

(** A shape that [np.zeros] refuses stops the decoder before a row is
    looked at. *)
Lemma decode_too_big dt s t rest :
  read_tables AnalyzeSpatialMap_init s = Return (t, rest) →
  Nat.even (length rest) = true →
  array_too_big [height t; width t; depth t] = true →
  decode dt s = Raise ValueError_zeros.
Proof.
  intros Ht Heven Hbig.
  destruct (reshape_pairs_even _ Heven) as (rows & Hr & _).
  destruct (read_tables_keeps _ _ _ _ Ht) as (Hn & Hv & _). cbn in Hn, Hv.
  unfold decode. rewrite from_file_stages. unfold io_bind. rewrite Ht.
  unfold read_volumes, io_bind, read_all, io_lift. rewrite Hr, Hn, Hv.
  cbn [rbind]. change (Z.to_nat 1) with 1%nat. cbn [fill_volumes].
  unfold zeros3. by rewrite Hbig.
Qed.

(** X19: when the tables are read, the bytes after them are even in
    number and [np.zeros] refuses the shape of the header (the product
    of its extents other than 0, times 8, exceeds 2^63 - 1), decoding
    raises the ValueError of [np.zeros], which is none of the error
    kinds of the spec; this holds for a volume without a cell too. *)
Theorem X19_shape_too_big_fails dt s t rest :
  read_tables AnalyzeSpatialMap_init s = Return (t, rest) →
  Nat.even (length rest) = true →
  array_too_big [height t; width t; depth t] = true →
  decode dt s = Raise ValueError_zeros
  ∧ ∀ k, ¬ fails_with (decode dt s) k.
Proof.
  intros Ht Heven Hbig.
  pose proof (decode_too_big dt s t rest Ht Heven Hbig) as H.
  split; [done|]. intros k (e & He & Hk). rewrite H in He.
  by injection He as <-.
Qed.

Lemma X19_shape_too_big_fails_witness :
  decode np_int64 huge_extent_file = Raise ValueError_zeros
  ∧ ∀ k, ¬ fails_with (decode np_int64 huge_extent_file) k.
Proof.
  apply (X19_shape_too_big_fails np_int64 huge_extent_file huge_extent_tables
           []).
  - vm_compute; reflexivity.
  - reflexivity.
  - vm_compute; reflexivity.
Defined.

(** The tables of a file of at most twelve bytes: depth 0 and no
    object, and nothing left to read. *)
Lemma read_tables_short self s :
  (length s ≤ 12)%nat →
  ∃ t, read_tables self s = Return (t, [])
    ∧ depth t = 0 ∧ n_objects t = 0 ∧ objects t = objects self.
Proof.
  intros Hlen.
  rewrite (read_tables_objects self s _ _ _ (read_head_values s)).
  assert (∀ k, (12 ≤ k)%nat → drop k s = []) as Hdrop
    by (intros k Hk; apply drop_ge; lia).
  destruct (int_from_bytes (take 4 s) <? 20050829) eqn:E;
    cbn [seq fmap list_fmap nth Nat.add Nat.mul];
    rewrite (Hdrop 12%nat), (Hdrop 16%nat), ?(Hdrop 20%nat),
      ?(Hdrop 24%nat) by lia;
    cbn [take firstn int_from_bytes fold_left];
    change (Z.to_nat 0) with 0%nat; cbn [read_objects io_ret rbind];
    eexists; split; done.
Qed.

(** X13: a file of at most twelve bytes, the empty file among them, is
    read as a header of depth 0 without an object, its width and height
    being the values of the bytes 4 to 7 and 8 to 11.  When [np.zeros]
    accepts the shape (height, width, 0), decoding returns a map of
    depth 0, with no object and one volume without a cell; when it
    does not, decoding raises the ValueError of [np.zeros].  For a
    file of at most eight bytes the shape is always accepted. *)
Theorem X13_short_file_decodes dt s :
  (length s ≤ 12)%nat →
  let w := int_from_bytes (take 4 (drop 4 s)) in
  let h := int_from_bytes (take 4 (drop 8 s)) in
  (array_too_big [h; w; 0] = false →
   ∃ m v, decode dt s = Return m ∧ depth m = 0 ∧ n_objects m = 0
     ∧ objects m = [] ∧ vols m = [v] ∧ cells v = [])
  ∧ (array_too_big [h; w; 0] = true → decode dt s = Raise ValueError_zeros)
  ∧ ((length s ≤ 8)%nat → array_too_big [h; w; 0] = false).
Proof.
  intros Hlen. cbn zeta.
  destruct (read_tables_short AnalyzeSpatialMap_init s Hlen)
    as (t & Ht & Hd & Hn & Hobjs).
  pose proof (read_tables_header _ _ _ _ Ht) as (_ & _ & Hw & Hh & _).
  rewrite <- Hw, <- Hh. split; [|split].
  - intros Hbig. eexists _, _. split.
    { apply (decode_slices dt s t [] [] []); [done|done| |constructor| |].
      - by rewrite Hd.
      - by rewrite Hd.
      - rewrite Hd. lia. }
    cbn [depth n_objects objects vols fmap list_fmap place_slices].
    rewrite Hd. repeat split; try done.
    cbn [cells blank3]. by rewrite Z.mul_0_r.
  - intros Hbig.
    apply (decode_too_big dt s t []); [done|done|by rewrite Hd].
  - intros Hlen8. rewrite Hw, Hh.
    rewrite (drop_ge s 8) by lia. cbn [take firstn int_from_bytes fold_left].
    destruct (read_int_unsigned 4 (drop 4 s)) as [Hw0 Hw1].
    unfold array_too_big. cbn [fold_right].
    change (256 ^ Z.of_nat 4) with 4294967296 in Hw1.
    cbn [Z.eqb]. apply Z.ltb_ge.
    destruct (_ =? 0) eqn:E; lia.
Qed.

Lemma X13_short_file_decodes_witness :
  ∃ m v, decode np_uint8 short_header_file = Return m ∧ depth m = 0
    ∧ n_objects m = 0 ∧ objects m = [] ∧ vols m = [v] ∧ cells v = [].
Proof.
  destruct (X13_short_file_decodes np_uint8 short_header_file) as [H _].
  - vm_compute. lia.
  - apply H. vm_compute; reflexivity.
Defined.

(** X18: a file whose header gives a slice and more cells to a slice
    than the dtype of the counter can count is never decoded: the
    counter stays below the capacity, so the loop over the runs of the
    first slice ends in an error.  With the uint8 counter of NumPy 2
    and later this is every file with a slice of 256 cells or more. *)
Theorem X18_uncounted_slice_never_decodes dt s t rest :
  read_tables AnalyzeSpatialMap_init s = Return (t, rest) →
  0 < depth t →
  counter_max dt < width t * height t →
  ∃ e, decode dt s = Raise e.
Proof.
  intros Ht Hd Hcap.
  destruct (read_tables_keeps _ _ _ _ Ht) as (Hn & Hv & _). cbn in Hn, Hv.
  unfold decode. rewrite from_file_stages. unfold io_bind. rewrite Ht.
  unfold read_volumes, io_bind, read_all, io_lift.
  destruct (reshape_pairs rest) as [rows|e]; [|by exists e].
  cbn [rbind]. rewrite Hn, Hv. change (Z.to_nat 1) with 1%nat.
  cbn [fill_volumes].
  destruct (zeros3 _ _ _) as [vol0|e]; [|by exists e]. cbn [rbind].
  destruct (Z.to_nat (depth t)) as [|todo] eqn:E; [lia|].
  cbn [fill_volume].
  destruct (zeros1 _) as [buf|e]; [|by exists e]. cbn [rbind].
  destruct (fill_slice_never dt (width t * height t) rows 0 buf)
    as [e He]; [done|pose proof (counter_max_255 dt); lia|].
  rewrite He. by exists e.
Qed.

Lemma X18_uncounted_slice_never_decodes_witness :
  ∃ e, decode np_uint8 wrapped_counter_file = Raise e.
Proof.
  apply (X18_uncounted_slice_never_decodes np_uint8 wrapped_counter_file
           wrapped_counter_tables (bytes [255; 1; 1; 1; 43; 1; 2; 9])).
  - vm_compute; reflexivity.
  - cbn; lia.
  - cbn; lia.
Defined.

(** ** Reading into a map that holds data *)

(** X14: [from_file] reads the file to its end and adds to the object
    it is called on: the objects read are appended to the objects it
    held and the volumes decoded to the volumes it held, as many
    volumes as its [n_vols] said before the call, each of the shape of
    the new header; [n_vols] itself is not changed.  After a second
    read the volume at index 0 is still the one of the first read. *)
Theorem X14_from_file_appends dt self s self' s' :
  from_file dt self s = Return (self', s') →
  s' = [] ∧ n_vols self' = n_vols self
  ∧ (∃ new, objects self' = objects self ++ new
            ∧ length new = Z.to_nat (n_objects self'))
  ∧ (∃ new, vols self' = vols self ++ new
            ∧ length new = Z.to_nat (n_vols self)
            ∧ Forall (λ v, shape v = (height self', width self', depth self'))
                     new).
Proof.
  rewrite from_file_stages. unfold io_bind.
  destruct (read_tables self s) as [[t rest]|e] eqn:Ht; [|done].
  destruct (read_tables_keeps _ _ _ _ Ht) as (Hn & Hv & _).
  destruct (read_tables_nonneg _ _ _ _ Ht) as (Hw0 & Hh0 & Hd0).
  destruct (read_tables_position _ _ _ _ Ht) as (_ & _ & Hobjs).
  unfold read_volumes, io_bind, read_all, io_lift.
  destruct (reshape_pairs rest) as [rows|e]; [|done]. cbn [rbind].
  destruct (fill_volumes _ _ _ _ _ _ _) as [vs|e] eqn:Hf; [|done].
  cbn [rbind io_ret]. intros [= <- <-].
  cbn [n_vols objects vols height width depth n_objects].
  apply fill_volumes_Return in Hf as (new & -> & Hlen & Hall); [|nia].
  split; [done|]. split; [done|]. split; [done|].
  exists new. by rewrite <- Hv, <- Hn.
Qed.

Lemma X14_from_file_appends_witness :
([] : stream) = [] ∧ n_vols example_map_twice = n_vols example_map
  ∧ (∃ new, objects example_map_twice = objects example_map ++ new
            ∧ length new = Z.to_nat (n_objects example_map_twice))
  ∧ (∃ new, vols example_map_twice = vols example_map ++ new
            ∧ length new = Z.to_nat (n_vols example_map)
            ∧ Forall (λ v, shape v = (height example_map_twice,
                                      width example_map_twice,
                                      depth example_map_twice)) new).
Proof.
  apply (X14_from_file_appends np_uint8 example_map example_file
           example_map_twice []).
  vm_compute; reflexivity.
Defined.

(** X15: for a file whose version code is below 20050829 the decoded
    map has version 6, volume count 1 and exactly one volume. *)
Theorem X15_version6_single_volume dt s m :
  decode dt s = Return m →
  version_code m < 20050829 →
  version m = 6 ∧ n_vols m = 1 ∧ length (vols m) = 1%nat.
Proof.
  intros Hd Hvc. destruct (decode_one_volume _ _ _ Hd) as [Hn Hl].
  split; [|done]. apply decode_Return in Hd
    as (t & rest & slices & more & Ht & _ & _ & _ & _ & _ & Hc & -> & _).
  apply read_tables_keeps in Ht as (_ & _ & ->). rewrite <- Hc.
  by destruct (version_code m <? 20050829) eqn:E; [|lia].
Qed.

Lemma X15_version6_single_volume_witness :
  version example_map = 6 ∧ n_vols example_map = 1
  ∧ length (vols example_map) = 1%nat.
Proof.
  apply (X15_version6_single_volume np_uint8 example_file example_map).
  - vm_compute; reflexivity.
  - cbn; lia.
Defined.

(** ** [get_data] on any map *)

(** X16: on any map holding [n] volumes, [get_data(idx)] returns a
    volume exactly for [-n <= idx < n], the one at position
    [idx mod n]; for every other index, and so for every index on a map
    that has read no file, it raises IndexError.  The map is never
    changed. *)
Theorem X16_get_data_range self idx :
  let n := Z.of_nat (length (vols self)) in
  (- n ≤ idx < n →
   ∃ v, vols self !! Z.to_nat (idx `mod` n) = Some v
        ∧ fst (get_data self idx) = Return v)
  ∧ (idx < - n ∨ n ≤ idx →
     fst (get_data self idx) = Raise IndexError_list)
  ∧ snd (get_data self idx) = self.
Proof.
  cbn zeta. split; [|split; [|done]].
  - intros Hidx. cbn [get_data fst]. unfold list_getitem.
    assert ((if idx <? 0 then idx + Z.of_nat (length (vols self)) else idx)
            = idx `mod` Z.of_nat (length (vols self))) as ->.
    { destruct (idx <? 0) eqn:E.
      - apply (Z.mod_unique_pos _ _ (-1)); lia.
      - symmetry. apply Z.mod_small. lia. }
    pose proof (Z.mod_pos_bound idx (Z.of_nat (length (vols self)))) as Hm.
    destruct (_ <? 0) eqn:E; [bool_lia|].
    destruct (lookup_lt_is_Some_2 (vols self)
                (Z.to_nat (idx `mod` Z.of_nat (length (vols self)))))
      as [v Hv]; [lia|].
    exists v. by rewrite Hv.
  - intros Hidx. cbn [get_data fst]. unfold list_getitem.
    destruct (idx <? 0) eqn:E.
    + by destruct (idx + _ <? 0) eqn:E2; [|bool_lia].
    + rewrite E. by rewrite (proj2 (lookup_ge_None _ _)) by bool_lia.
Qed.

(** ** The records of the object table *)

(** The records are read one after the other, 152 bytes apart. *)
Lemma read_objects_records n : ∀ objs s objs' s',
  read_objects n objs s = Return (objs', s') →
  ∀ i, (i < n)%nat →
    ∃ o, objs' !! (length objs + i)%nat = Some o
         ∧ read_object (drop (152 * i) s)
           = Return (o, drop (152 * S i) s).
Proof.
  induction n as [|n IH]; intros objs s objs' s' Hr i Hi; [lia|].
  cbn [read_objects] in Hr. unfold io_bind in Hr.
  destruct (read_object s) as [[o0 s1]|e] eqn:Ho; [|done].
  pose proof Ho as Ho'. apply read_object_Return in Ho' as (_ & -> & _).
  destruct i as [|i].
  - apply read_objects_position in Hr as (_ & _ & new & -> & _).
    exists o0. split; [|done].
    rewrite Nat.add_0_r, <- app_assoc, lookup_app_r by lia.
    by rewrite Nat.sub_diag.
  - destruct (IH _ _ _ _ Hr i) as (o & Hlook & Hread); [lia|].
    exists o. rewrite length_app in Hlook. cbn [length] in Hlook.
    split.
    + by replace (length objs + S i)%nat with (length objs + 1 + i)%nat by lia.
    + rewrite !drop_drop in Hread.
      by replace (152 * S i)%nat with (152 + 152 * i)%nat by lia;
         replace (152 * S (S i))%nat with (152 + 152 * S i)%nat by lia.
Qed.

(** X17: the object at position [i] of a decoded map is what
    [read_object] reads from the 152 bytes that start [152 * i] bytes
    after the header (of 20 bytes for version 6, 24 for version 7):
    the records lie one after the other, without gap or overlap. *)
Theorem X17_object_records_consecutive dt s m i o :
  decode dt s = Return m →
  objects m !! i = Some o →
  let header_size :=
    (4 + 4 * (if (version_code m <? 20050829)%Z then 4 else 5))%nat in
  read_object (drop (header_size + 152 * i) s)
  = Return (o, drop (header_size + 152 * S i) s).
Proof.
  intros Hd Ho. cbn zeta. apply decode_Return in Hd
    as (t & rest & slices & more & Ht & _ & _ & _ & _ & _ & Hvc & _ & _ & _
        & _ & _ & Hobjs & _).
  rewrite Hobjs in Ho. rewrite Hvc.
  pose proof (read_tables_header _ _ _ _ Ht) as (Hc & _).
  rewrite (read_tables_objects _ s _ _ _ (read_head_values s)) in Ht.
  destruct (read_objects _ _ _) as [[objs s2]|e] eqn:Hr; [|done].
  injection Ht as <- <-. cbn [objects version_code] in *.
  pose proof (read_objects_position _ _ _ _ _ Hr) as (_ & _ & new & Hnew & Hlen).
  cbn [objects AnalyzeSpatialMap_init app] in Hnew, Hr.
  destruct (read_objects_records _ _ _ _ _ Hr i) as (o' & Hlook & Hread).
  { apply lookup_lt_Some in Ho. rewrite Hnew in Ho. lia. }
  cbn [length Nat.add] in Hlook. rewrite Hlook in Ho. injection Ho as ->.
  by rewrite !drop_drop in Hread.
Qed.

Lemma X17_object_records_consecutive_witness :
  let header_size :=
    (4 + 4 * (if (version_code one_object_map <? 20050829)%Z then 4 else 5))%nat
  in
  read_object (drop (header_size + 152 * 0) one_object_file)
  = Return (one_object, drop (header_size + 152 * 1) one_object_file).
Proof.
  apply (X17_object_records_consecutive np_uint8 one_object_file
           one_object_map 0 one_object).
  - vm_compute; reflexivity.
  - reflexivity.
Defined.
